(** * GOES-16 RGB composite notebook: resampler and band combiner

    Shallow embedding of the code cells of
    [failing_notebooks/GOES_RGB_Demo/GOES_RGB_Image.ipynb]
    ([open_dataset], [interpolate_red_channel], [make_RGB_data]) together
    with the handful of numpy operations they call, and the properties of
    the alignment and compositing step that the specification states.

    Numbers are IEEE-754 binary64 values (numpy's default [float64]),
    embedded as Rocq's primitive floats: [0.1], [0.45] and [0.0001] are the
    nearest doubles, exactly as the Python literals are.  A 2-D array is a
    list of rows, a 3-D array a list of rows of pixels. *)

From Stdlib Require Import Floats.PrimFloat Floats.FloatOps Floats.FloatAxioms
  Floats.SpecFloat ZArith.
From stdpp Require Import base option list strings gmap pretty.
From stdpp Require Import sorting.

Set Warnings "-inexact-float".

(** ** Python results: a value or a raised exception *)

(** An exception is its class name and its argument. *)
Inductive exn : Type :=
  | Exn (cls : string) (arg : string).

Inductive res (A : Type) : Type :=
  | Ok (a : A)
  | Raise (e : exn).
Arguments Ok {A} a.
Arguments Raise {A} e.

Definition res_bind {A B : Type} (m : res A) (k : A -> res B) : res B :=
  match m with
  | Ok a => k a
  | Raise e => Raise e
  end.

Notation "x <~ m ;; k" := (res_bind m (fun x => k))
  (at level 100, m at next level, right associativity).

Definition UnboundLocalError (name : string) : exn := Exn "UnboundLocalError" name.
Definition NameError (name : string) : exn := Exn "NameError" name.
Definition TypeError (what : string) : exn := Exn "TypeError" what.
Definition ValueError (what : string) : exn := Exn "ValueError" what.
Definition IndexError (what : string) : exn := Exn "IndexError" what.

(** ** The numpy operations the notebook uses *)

Abbreviation coords := (list float) (only parsing).
Abbreviation ndarray := (list (list float)) (only parsing).
Abbreviation ndarray3 := (list (list (list float))) (only parsing).

(** [a.shape] of a 2-D array; the width is read off the first row. *)
Definition np_shape (a : ndarray) : nat * nat :=
  (length a, from_option length 0 (head a)).

(** [a] is a rectangular [h] by [w] array. *)
Definition has_shape (h w : nat) (a : ndarray) : bool :=
  Nat.eqb (length a) h && forallb (fun row => Nat.eqb (length row) w) a.

(** [a[i, j]], when in range. *)
Definition lookup2 {A : Type} (a : list (list A)) (i j : nat) : option A :=
  a !! i ≫= (.!! j).

(** [a[i, j]] for an index known to be in range. *)
Definition get2 (a : ndarray) (i j : nat) : float :=
  default 0%float (lookup2 a i j).

(** [a <= s]: the boolean mask of a comparison against a scalar. *)
Definition np_less_equal (a : ndarray) (s : float) : list (list bool) :=
  (fun row : coords => (fun v => PrimFloat.leb v s) <$> row) <$> a.

Fixpoint true_positions (j : nat) (row : list bool) : list nat :=
  match row with
  | [] => []
  | b :: rest => (if b then [j] else []) ++ true_positions (S j) rest
  end.

Fixpoint np_where_from (i : nat) (mask : list (list bool)) : list (nat * nat) :=
  match mask with
  | [] => []
  | row :: rest => (pair i <$> true_positions 0 row) ++ np_where_from (S i) rest
  end.

(** [np.where(mask)]: the indices of the true entries in row-major order
    (numpy returns them as a pair of index arrays; here they are zipped). *)
Definition np_where (mask : list (list bool)) : list (nat * nat) :=
  np_where_from 0 mask.

(** [a[idx] = v] for the index arrays of [np.where]: each listed position
    is overwritten in turn. *)
Definition np_setitem (a : ndarray) (idx : list (nat * nat)) (v : float) : ndarray :=
  foldl (fun acc ij => alter (<[ij.2 := v]>) ij.1 acc) a idx.

(** [np.sqrt(a)]. *)
Definition np_sqrt (a : ndarray) : ndarray :=
  (fun row : coords => PrimFloat.sqrt <$> row) <$> a.

(** [a * s] for a Python float [s]. *)
Definition np_mul_scalar (a : ndarray) (s : float) : ndarray :=
  (fun row : coords => (fun v => PrimFloat.mul v s) <$> row) <$> a.

(** Broadcasting of one dimension: equal lengths, or one of them is 1. *)
Definition broadcast_dim (m n : nat) : option nat :=
  if Nat.eqb m n then Some m
  else if Nat.eqb m 1 then Some n
  else if Nat.eqb n 1 then Some m
  else None.

Definition broadcast_shapes (s t : nat * nat) : option (nat * nat) :=
  h ← broadcast_dim s.1 t.1; w ← broadcast_dim s.2 t.2; Some (h, w).

(** The index read along an axis of length [d] when broadcasting. *)
Definition bidx (d i : nat) : nat := if Nat.eqb d 1 then 0 else i.

Definition tabulate {A : Type} (n : nat) (f : nat -> A) : list A :=
  f <$> seq 0 n.

(** [a + b] with numpy's broadcasting; incompatible shapes raise. *)
Definition np_add (a b : ndarray) : res ndarray :=
  let sa := np_shape a in
  let sb := np_shape b in
  match broadcast_shapes sa sb with
  | None => Raise (ValueError "operands could not be broadcast together")
  | Some (h, w) =>
      Ok (tabulate h (fun i => tabulate w (fun j =>
            PrimFloat.add (get2 a (bidx sa.1 i) (bidx sa.2 j))
                          (get2 b (bidx sb.1 i) (bidx sb.2 j)))))
  end.

Definition shape_eqb (s t : nat * nat) : bool :=
  Nat.eqb s.1 t.1 && Nat.eqb s.2 t.2.

(** [np.dstack(arrs)] of 2-D arrays: every array becomes one channel of
    the last axis; the arrays must agree on the first two axes. *)
Definition np_dstack (arrs : list ndarray) : res ndarray3 :=
  match arrs with
  | [] => Raise (ValueError "need at least one array to concatenate")
  | a0 :: rest =>
      let s := np_shape a0 in
      if forallb (fun a => shape_eqb (np_shape a) s) rest
      then Ok (tabulate s.1 (fun i => tabulate s.2 (fun j =>
                 (fun a => get2 a i j) <$> arrs)))
      else Raise (ValueError "all the input array dimensions except for the concatenation axis must match exactly")
  end.

(** [a.shape] of a 3-D array. *)
Definition np_shape3 (a : ndarray3) : nat * nat * nat :=
  (length a, from_option length 0 (head a),
   from_option length 0 (head a ≫= head)).

(** [a[::-1]]: the rows in reverse order. *)
Definition np_flip_rows (a : ndarray) : ndarray := reverse a.

(** ** Python local variables: a small state-and-exception monad *)

(** A function body runs over its local namespace, a finite map from
    variable names to values, and either returns or raises. *)
Definition M (V A : Type) : Type :=
  gmap string V -> res (A * gmap string V).

Definition ret {V A : Type} (a : A) : M V A :=
  fun locals => Ok (a, locals).

Definition bind {V A B : Type} (m : M V A) (k : A -> M V B) : M V B :=
  fun locals =>
    match m locals with
    | Ok (a, locals') => k a locals'
    | Raise e => Raise e
    end.

Notation "x <- m ;; k" := (bind m (fun x => k))
  (at level 100, m at next level, right associativity).
Notation "m ;;; k" := (bind m (fun _ => k))
  (at level 100, right associativity).

(** A call into a library: its result or its exception. *)
Definition lift {V A : Type} (r : res A) : M V A :=
  fun locals =>
    match r with
    | Ok a => Ok (a, locals)
    | Raise e => Raise e
    end.

(** Reading a local variable that has not been assigned yet raises
    [UnboundLocalError]. *)
Definition load_fast {V : Type} (name : string) : M V V :=
  fun locals =>
    match locals !! name with
    | Some v => Ok (v, locals)
    | None => Raise (UnboundLocalError name)
    end.

Definition store_fast {V : Type} (name : string) (v : V) : M V unit :=
  fun locals => Ok (tt, <[name := v]> locals).

(** Reading a module-level name that is not defined raises [NameError]. *)
Definition load_global {V : Type} (globals : gmap string V) (name : string) : M V V :=
  lift (match globals !! name with
        | Some v => Ok v
        | None => Raise (NameError name)
        end).

(** ** Datasets *)

(** What the notebook reads from an opened dataset: the coordinate axes
    [.x] and [.y], the attribute [.start_date_time], and the gridded
    variable the dataset holds. *)
Record Dataset : Type := {
  ds_x : coords;
  ds_y : coords;
  ds_grid : ndarray;
  start_date_time : string
}.

(** [l[idx]] for a Python list: negative indices count from the end. *)
Definition py_getitem {A : Type} (l : list A) (idx : Z) : res A :=
  let n := Z.of_nat (length l) in
  let k := if (idx <? 0)%Z then (idx + n)%Z else idx in
  if ((k <? 0) || (n <=? k))%Z then Raise (IndexError "list index out of range")
  else match l !! Z.to_nat k with
       | Some a => Ok a
       | None => Raise (IndexError "list index out of range")
       end.

(** ['{:02d}'.format(n)]. *)
Definition format_02d (n : Z) : string :=
  let s := pretty n in
  if Nat.ltb (String.length s) 2 then "0" +:+ s else s.

Section Notebook.

(** The third-party services the notebook calls (siphon, metpy, scipy,
    datetime): each either returns or raises. *)
Context {Date CatalogEntry DataArray Proj Datetime : Type}.
Variable strftime_Ymd : Date -> string.
Variable TDSCatalog : string -> res (list CatalogEntry).
Variable remote_access : CatalogEntry -> res Dataset.
Variable parse_cf : Dataset -> string -> res DataArray.
Variable cartopy_crs : DataArray -> res Proj.
Variable interp2d :
  coords -> coords -> Dataset -> float -> res (coords -> coords -> res ndarray).
Variable strptime : string -> string -> res Datetime.

(** The values a variable of the notebook can hold. *)
Inductive pyval : Type :=
  | VInt (n : Z)
  | VDataset (ds : Dataset)
  | VDataArray (da : DataArray)
  | VProj (p : Proj)
  | VCoords (c : coords)
  | VArray (a : ndarray)
  | VArray3 (a : ndarray3)
  | VDatetime (t : Datetime).

(** The module-level names defined when [make_RGB_data] is called. *)
Variable globals : gmap string pyval.

Definition as_int (v : pyval) : res Z :=
  match v with VInt n => Ok n | _ => Raise (TypeError "int expected") end.
Definition as_dataset (v : pyval) : res Dataset :=
  match v with VDataset ds => Ok ds | _ => Raise (TypeError "Dataset expected") end.
Definition as_dataarray (v : pyval) : res DataArray :=
  match v with VDataArray da => Ok da | _ => Raise (TypeError "DataArray expected") end.
Definition as_array (v : pyval) : res ndarray :=
  match v with VArray a => Ok a | _ => Raise (TypeError "ndarray expected") end.

Definition load_int (name : string) : M pyval Z :=
  v <- load_fast name ;; lift (as_int v).
Definition load_dataset (name : string) : M pyval Dataset :=
  v <- load_fast name ;; lift (as_dataset v).
Definition load_dataarray (name : string) : M pyval DataArray :=
  v <- load_fast name ;; lift (as_dataarray v).
Definition load_array (name : string) : M pyval ndarray :=
  v <- load_fast name ;; lift (as_array v).

(** [open_dataset(date, channel, region, idx)]. *)
Definition open_dataset (date : Date) (channel : Z) (region : string) (idx : Z)
  : res Dataset :=
  cat <~ TDSCatalog
    ("http://thredds.ucar.edu/thredds/catalog/satellite/goes16/GOES16/"
     +:+ region +:+ "/Channel" +:+ format_02d channel +:+ "/"
     +:+ strftime_Ymd date +:+ "/catalog.xml") ;;
  ds <~ py_getitem cat idx ;;
  remote_access ds.

(** [interpolate_red_channel(red_ds, resampled_ds)]. *)
Definition interpolate_red_channel (red_ds resampled_ds : Dataset)
  : res (coords * coords * ndarray) :=
  let x_new := ds_x resampled_ds in
  let y_new := ds_y resampled_ds in
  f <~ interp2d (ds_x red_ds) (ds_y red_ds) red_ds 0%float ;;
  red_interpolated <~ f x_new y_new ;;
  Ok (x_new, y_new, np_flip_rows red_interpolated).

(** The body of [make_RGB_data] up to and including the call of
    [interpolate_red_channel]: everything before the clipping. *)
Definition load_channels (date : Date) (region : string) (idx : Z) : M pyval unit :=
  store_fast "red_channel" (VInt 2) ;;;
  store_fast "green_channel" (VInt 3) ;;;
  store_fast "blue_channel" (VInt 1) ;;;
  (c <- load_int "red_channel" ;;
   ds <- lift (open_dataset date c region idx) ;;
   store_fast "red_ds" (VDataset ds)) ;;;
  (c <- load_int "blue_channel" ;;
   ds <- lift (open_dataset date c region idx) ;;
   store_fast "blue_ds" (VDataset ds)) ;;;
  (c <- load_int "green_channel" ;;
   ds <- lift (open_dataset date c region idx) ;;
   store_fast "green_ds" (VDataset ds)) ;;;
  (ds <- load_dataset "red_ds" ;;
   da <- lift (parse_cf ds "Sectorized_CMI") ;;
   store_fast "red_dat" (VDataArray da)) ;;;
  (ds <- load_dataset "blue_ds" ;;
   da <- lift (parse_cf ds "Sectorized_CMI") ;;
   store_fast "blue_dat" (VDataArray da)) ;;;
  (ds <- load_dataset "green_ds" ;;
   da <- lift (parse_cf ds "Sectorized_CMI") ;;
   store_fast "green_dat" (VDataArray da)) ;;;
  (da <- load_dataarray "green_dat" ;;
   p <- lift (cartopy_crs da) ;;
   store_fast "proj" (VProj p)) ;;;
  (red <- load_dataset "red_ds" ;;
   blue <- load_dataset "blue_ds" ;;
   r <- lift (interpolate_red_channel red blue) ;;
   store_fast "x" (VCoords r.1.1) ;;;
   store_fast "y" (VCoords r.1.2) ;;;
   store_fast "red_data" (VArray r.2)).

(** [name[np.where(name <= 0.0001)] = 1]. *)
Definition clip_stmt (name : string) : M pyval unit :=
  target <- load_array name ;;
  a <- load_array name ;;
  store_fast name
    (VArray (np_setitem target (np_where (np_less_equal a 0.0001%float)) 1%float)).

(** [name = np.sqrt(name)]. *)
Definition sqrt_stmt (name : string) : M pyval unit :=
  a <- load_array name ;;
  store_fast name (VArray (np_sqrt a)).

(** "Clip out maxes". *)
Definition clip_maxes : M pyval unit :=
  clip_stmt "red_data" ;;;
  clip_stmt "blue_data" ;;;
  clip_stmt "green_data".

(** "Brightness Enhancement". *)
Definition brightness_enhancement : M pyval unit :=
  sqrt_stmt "red_data" ;;;
  sqrt_stmt "blue_data" ;;;
  sqrt_stmt "green_data".

(** [green_data = green_data * wg + blue_data * wb + red_data * wr]. *)
Definition fake_green_with (wg wb wr : float) : M pyval unit :=
  g <- load_array "green_data" ;;
  b <- load_array "blue_data" ;;
  gb <- lift (np_add (np_mul_scalar g wg) (np_mul_scalar b wb)) ;;
  r <- load_array "red_data" ;;
  gbr <- lift (np_add gb (np_mul_scalar r wr)) ;;
  store_fast "green_data" (VArray gbr).

(** [rgb_data = np.dstack([red_data, green_data, blue_data])]. *)
Definition stack_rgb : M pyval unit :=
  r <- load_array "red_data" ;;
  g <- load_array "green_data" ;;
  b <- load_array "blue_data" ;;
  rgb <- lift (np_dstack [r; g; b]) ;;
  store_fast "rgb_data" (VArray3 rgb).

(** The band combiner: the statements of [make_RGB_data] from the
    clipping to the stacking, with the three weights of the green
    synthesis as they would be if they were configurable. *)
Definition band_combiner_with (wg wb wr : float) : M pyval unit :=
  clip_maxes ;;;
  brightness_enhancement ;;;
  fake_green_with wg wb wr ;;;
  stack_rgb.

(** "Make better fake green channel", with the weights of the source. *)
Definition fake_green : M pyval unit :=
  fake_green_with 0.1%float 0.45%float 0.45%float.

(** The band combiner as the source has it. *)
Definition band_combiner : M pyval unit :=
  band_combiner_with 0.1%float 0.45%float 0.45%float.

(** The end of [make_RGB_data]: coordinates, time and the returned tuple. *)
Definition finish : M pyval (pyval * pyval * pyval * pyval * pyval) :=
  (ds <- load_dataset "green_ds" ;; store_fast "x" (VCoords (ds_x ds))) ;;;
  (ds <- load_dataset "green_ds" ;; store_fast "y" (VCoords (ds_y ds))) ;;;
  (ds <- load_dataset "green_ds" ;;
   t <- lift (strptime (start_date_time ds) "%Y%j%H%M%S") ;;
   store_fast "time" (VDatetime t)) ;;;
  time <- load_fast "time" ;;
  x <- load_fast "x" ;;
  y <- load_fast "y" ;;
  proj_var <- load_global globals "proj_var" ;;
  rgb_data <- load_fast "rgb_data" ;;
  ret (time, x, y, proj_var, rgb_data).

(** [make_RGB_data(date, region, idx)]: the body runs from a local
    namespace in which none of its variables is assigned yet (the three
    parameters are passed to the statements that use them). *)
Definition make_RGB_data (date : Date) (region : string) (idx : Z)
  : res (pyval * pyval * pyval * pyval * pyval) :=
  match (load_channels date region idx ;;; band_combiner ;;; finish) ∅ with
  | Ok (result, _) => Ok result
  | Raise e => Raise e
  end.

End Notebook.

(** ** The interpolant

    [scipy.interpolate.interp2d] is a third-party routine and not part of
    the repository.  Section 4.1 of the specification gives its contract
    (bilinear interpolation over the source grid, a fill value outside
    the source's coordinate envelope); the definitions of this part
    follow that contract and the way the routine treats its axes: it
    puts the source axes in ascending order, taking the grid along, and
    it evaluates on the target axes in ascending order, whatever order
    they are given in. *)

(** Modelled from the spec: numpy's order for sorting floats, [a < b]
    with a NaN after every number. *)
Definition np_lt (a b : float) : bool :=
  PrimFloat.ltb a b || (negb (PrimFloat.eqb b b) && PrimFloat.eqb a a).

(** Modelled from the spec: a stable sort by a key, the order in which
    [np.sort] and [np.argsort] put the elements. *)
Fixpoint insert_by {A : Type} (key : A -> float) (p : A) (l : list A) : list A :=
  match l with
  | [] => [p]
  | q :: rest =>
      if np_lt (key q) (key p) then q :: insert_by key p rest else p :: l
  end.

(** Modelled from the spec: the list in ascending order of the keys,
    elements of equal keys in the order they had. *)
Definition sort_by {A : Type} (key : A -> float) (l : list A) : list A :=
  foldr (insert_by key) [] l.

(** Modelled from the spec: [np.sort(axis)]. *)
Definition np_sort (axis : coords) : coords := sort_by id axis.

(** Modelled from the spec: [np.argsort(axis)], the positions of the
    axis in ascending order of their coordinates. *)
Definition np_argsort (axis : coords) : list nat :=
  (sort_by fst (zip axis (seq 0 (length axis)))).*2.

(** Modelled from the spec: [l[j]] for an array [j] of positions. *)
Definition np_take {A : Type} (j : list nat) (l : list A) : list A :=
  omap (fun k => l !! k) j.

(** Modelled from the spec: [np.all(axis[1:] >= axis[:-1])]. *)
Fixpoint nondecreasing (axis : coords) : bool :=
  match axis with
  | a :: rest =>
      match rest with
      | b :: _ => PrimFloat.leb a b && nondecreasing rest
      | [] => true
      end
  | [] => true
  end.

(** Modelled from the spec: the smaller and the greater of two
    coordinates as [np.amin] and [np.amax] take them (a NaN wins), for
    the envelope of an axis of [interp2d]. *)
Definition fmin (a b : float) : float :=
  if PrimFloat.leb a b || negb (PrimFloat.eqb a a) then a else b.
Definition fmax (a b : float) : float :=
  if PrimFloat.leb b a || negb (PrimFloat.eqb a a) then a else b.

(** Modelled from the spec: [np.amin(axis)] and [np.amax(axis)], the
    two ends of the envelope of a source axis. *)
Definition np_amin (axis : coords) : float :=
  match axis with
  | [] => nan
  | a :: rest => foldl fmin a rest
  end.

Definition np_amax (axis : coords) : float :=
  match axis with
  | [] => nan
  | a :: rest => foldl fmax a rest
  end.

(** Modelled from the spec: [v] lies outside the coordinate envelope of
    a source axis of [interp2d], [(v < x_min) | (v > x_max)]. *)
Definition out_of_bounds (axis : coords) (v : float) : bool :=
  PrimFloat.ltb v (np_amin axis) || PrimFloat.ltb (np_amax axis) v.

(** Modelled from the spec: the source of [interp2d] with its axes put
    in ascending order, [j = np.argsort(x); x = x[j]; z = z[:, j]] for an
    [x] axis that is not ascending and likewise [z = z[j, :]] for the
    [y] axis. *)
Definition sort_source (x y : coords) (z : ndarray) : coords * coords * ndarray :=
  let '(x, z) :=
    if nondecreasing x then (x, z)
    else let j := np_argsort x in
         (np_take j x, (fun row : coords => np_take j row) <$> z) in
  let '(y, z) :=
    if nondecreasing y then (y, z)
    else let j := np_argsort y in (np_take j y, np_take j z) in
  (x, y, z).

(** Modelled from the spec: [scipy.interpolate.interp2d] around the
    routine [spline] that evaluates the fitted surface, which is given
    the ascending source axes, the grid and a point.  The constructor
    refuses a grid that is not of shape [(len(y), len(x))] and axes of
    fewer than two points, and puts the source axes in ascending order.
    The interpolant it returns refuses empty target axes, sorts the
    target axes, and yields the grid of shape [(len(y_new), len(x_new))]
    whose row [j] belongs to the [j]-th smallest of [y_new] and whose
    column [i] belongs to the [i]-th smallest of [x_new]; an entry whose
    column or row lies outside the envelope of the source axes holds the
    fill value.  Two things are left out: a grid with as many samples
    as each axis has points, which scipy takes as scattered data, is
    refused here; and for a single target row scipy returns a 1-D
    array, which [ndarray] does not represent, so the properties below
    take at least two target rows. *)
Definition interp2d_with (spline : coords -> coords -> ndarray -> float -> float -> float)
    (x y : coords) (z : Dataset) (fill_value : float)
  : res (coords -> coords -> res ndarray) :=
  if negb (has_shape (length y) (length x) (ds_grid z)) then
    Raise (ValueError "z must have shape (n, m) on a regular grid")
  else if Nat.ltb (length x) 2 || Nat.ltb (length y) 2 then
    Raise (Exn "error" "(mx>kx) failed for hidden mx")
  else
    let '(xs, ys, grid) := sort_source x y (ds_grid z) in
    Ok (fun x_new y_new =>
          if Nat.eqb (length x_new) 0 || Nat.eqb (length y_new) 0 then
            Raise (ValueError "Invalid input data")
          else
            Ok ((fun yv : float =>
                   (fun xv : float =>
                      if out_of_bounds xs xv || out_of_bounds ys yv
                      then fill_value
                      else spline xs ys grid xv yv) <$> np_sort x_new)
                  <$> np_sort y_new)).

(** Modelled from the spec: the cell of an ascending axis that holds
    [v], as the position of its left node and its two nodes; a point on
    a node belongs to the cell that starts there, the last node to the
    last cell. *)
Fixpoint locate (k : nat) (axis : coords) (v : float) : nat * float * float :=
  match axis with
  | a :: rest =>
      match rest with
      | b :: rest' =>
          match rest' with
          | [] => (k, a, b)
          | _ :: _ => if PrimFloat.ltb v b then (k, a, b) else locate (S k) rest v
          end
      | [] => (k, a, a)
      end
  | [] => (k, nan, nan)
  end.

(** Modelled from the spec: the weights of the two nodes of a cell at
    [v], the linear B-splines over the cell. *)
Definition node_weights (a b v : float) : float * float :=
  let f := (1 / (b - a))%float in ((f * (b - v))%float, (f * (v - a))%float).

(** Modelled from the spec: bilinear interpolation, the value at
    [(x, y)] of the surface that is linear in each coordinate over
    every cell of the ascending axes [xs] and [ys] and takes the values
    of [z] at the nodes. *)
Definition bilinear_at (xs ys : coords) (z : ndarray) (x y : float) : float :=
  let '(i, xa, xb) := locate 0 xs x in
  let '(j, ya, yb) := locate 0 ys y in
  let '(hx1, hx2) := node_weights xa xb x in
  let '(hy1, hy2) := node_weights ya yb y in
  (0 + get2 z j i * hx1 * hy1 + get2 z (S j) i * hx1 * hy2
     + get2 z j (S i) * hx2 * hy1 + get2 z (S j) (S i) * hx2 * hy2)%float.

(** Modelled from the spec: [scipy.interpolate.interp2d] with its
    default, linear, kind. *)
Definition bilinear_interp2d : coords -> coords -> Dataset -> float ->
    res (coords -> coords -> res ndarray) :=
  interp2d_with bilinear_at.

(** The resampler of the notebook over that interpolant. *)
Definition resample (src tgt : Dataset) : res (coords * coords * ndarray) :=
  interpolate_red_channel bilinear_interp2d src tgt.

(** ** The cell that calls [make_RGB_data] *)

(** The namespace itself, as a called function sees the module's names. *)
Definition get_namespace {V : Type} : M V (gmap string V) :=
  fun names => Ok (names, names).

(** Reading a name at module level: [NameError] when it is not defined. *)
Definition load_name {V : Type} (name : string) : M V V :=
  fun names => load_global names name names.

(** The top-level statements of a cell run in order over the module's
    names; the first one that raises ends the cell, and what the earlier
    statements assigned stays assigned. *)
Fixpoint run_cell {V : Type} (stmts : list (M V unit)) (names : gmap string V)
  : res unit * gmap string V :=
  match stmts with
  | [] => (Ok tt, names)
  | stmt :: rest =>
      match stmt names with
      | Ok (_, names') => run_cell rest names'
      | Raise e => (Raise e, names)
      end
  end.

(** The third-party services one run of the calling cell uses. *)
Record Services (CatalogEntry DataArray Proj Datetime : Type) : Type := {
  sv_utcnow : res Datetime;
  sv_strftime_Ymd : Datetime -> string;
  sv_TDSCatalog : string -> res (list CatalogEntry);
  sv_remote_access : CatalogEntry -> res Dataset;
  sv_parse_cf : Dataset -> string -> res DataArray;
  sv_cartopy_crs : DataArray -> res Proj;
  sv_interp2d :
    coords -> coords -> Dataset -> float -> res (coords -> coords -> res ndarray);
  sv_strptime : string -> string -> res Datetime
}.
Arguments sv_utcnow {_ _ _ _} _.
Arguments sv_strftime_Ymd {_ _ _ _} _ _.
Arguments sv_TDSCatalog {_ _ _ _} _ _.
Arguments sv_remote_access {_ _ _ _} _ _.
Arguments sv_parse_cf {_ _ _ _} _ _ _.
Arguments sv_cartopy_crs {_ _ _ _} _ _.
Arguments sv_interp2d {_ _ _ _} _ _ _ _ _.
Arguments sv_strptime {_ _ _ _} _ _ _.

Definition as_datetime {DataArray Proj Datetime : Type}
  (v : @pyval DataArray Proj Datetime) : res Datetime :=
  match v with VDatetime t => Ok t | _ => Raise (TypeError "datetime expected") end.

(** [date = datetime.utcnow()] and
    [timestamp, x, y, proj_var, rgb_data = make_RGB_data(date, 'Mesoscale-1', -2)]. *)
Definition call_cell {CatalogEntry DataArray Proj Datetime : Type}
  (sv : Services CatalogEntry DataArray Proj Datetime)
  : list (M (@pyval DataArray Proj Datetime) unit) :=
  [ (now <- lift (sv_utcnow sv) ;; store_fast "date" (VDatetime now));
    (v <- load_name "date" ;;
     date <- lift (as_datetime v) ;;
     names <- get_namespace ;;
     r <- lift (make_RGB_data (sv_strftime_Ymd sv) (sv_TDSCatalog sv)
                  (sv_remote_access sv) (sv_parse_cf sv) (sv_cartopy_crs sv)
                  (sv_interp2d sv) (sv_strptime sv) names
                  date "Mesoscale-1" (-2)) ;;
     store_fast "timestamp" r.1.1.1.1 ;;;
     store_fast "x" r.1.1.1.2 ;;;
     store_fast "y" r.1.1.2 ;;;
     store_fast "proj_var" r.1.2 ;;;
     store_fast "rgb_data" r.2) ].

(** The names after the calling cell has been run once for each of
    [runs], in turn. *)
Definition rerun_call_cell {CatalogEntry DataArray Proj Datetime : Type}
  (runs : list (Services CatalogEntry DataArray Proj Datetime))
  (names : gmap string (@pyval DataArray Proj Datetime))
  : gmap string (@pyval DataArray Proj Datetime) :=
  foldl (fun names sv => (run_cell (call_cell sv) names).2) names runs.

(** The catalog address [open_dataset] asks for. *)
Definition goes16_catalog_url (region : string) (channel : Z) (ymd : string) : string :=
  "http://thredds.ucar.edu/thredds/catalog/satellite/goes16/GOES16/"
  +:+ region +:+ "/Channel" +:+ format_02d channel +:+ "/"
  +:+ ymd +:+ "/catalog.xml".

(** [e] was raised by one of the third-party calls of [make_RGB_data]. *)
Definition raised_by_library {CatalogEntry DataArray Proj : Type}
  (TDSCatalog : string -> res (list CatalogEntry))
  (remote_access : CatalogEntry -> res Dataset)
  (parse_cf : Dataset -> string -> res DataArray)
  (cartopy_crs : DataArray -> res Proj)
  (interp2d :
     list float -> list float -> Dataset -> float ->
     res (list float -> list float -> res (list (list float))))
  (e : exn) : Prop :=
  (∃ url, TDSCatalog url = Raise e) ∨
  (∃ entry, remote_access entry = Raise e) ∨
  (∃ ds, parse_cf ds "Sectorized_CMI" = Raise e) ∨
  (∃ da, cartopy_crs da = Raise e) ∨
  (∃ xs ys ds, interp2d xs ys ds 0%float = Raise e) ∨
  (∃ xs ys ds f x_t y_t, interp2d xs ys ds 0%float = Ok f ∧ f x_t y_t = Raise e).

(** A dimension of the green band fits that of the red band when it is
    equal to it or is 1. *)
Definition dim_fits (g r : nat) : bool := Nat.eqb g r || Nat.eqb g 1.

(** The shapes of red, green and blue bands that the combiner accepts:
    blue has the shape of red, and green fits it in both dimensions. *)
Definition accepted_shapes (sr sg sb : nat * nat) : bool :=
  shape_eqb sb sr && dim_fits sg.1 sr.1 && dim_fits sg.2 sr.2.

(** * The NEXRAD composite notebook

    The cells of [failing_notebooks/CompositeRadar.ipynb] that pick the
    latest dataset of the catalog and that subset the grid. *)

Definition KeyError (key : string) : exn := Exn "KeyError" key.

(** The order of Python strings, character by character. *)
Definition str_le (a b : string) : Prop := Is_true (String.leb a b).

(** [names.sort()]. *)
Definition py_sort (names : list string) : list string :=
  merge_sort str_le names.

(** [today.strftime("%Y%m%d")] put into the address of the catalog. *)
Definition radar_catalog_url (ymd : string) : string :=
  "http://thredds.ucar.edu/thredds/catalog/nexrad/composite/gini/n0r/1km/"
  +:+ ymd +:+ "/catalog.xml".

(** [names = list(cat.datasets.keys())], [names.sort()],
    [latest = names[-1]]: the catalog's datasets are a dictionary from
    names to datasets. *)
Definition latest_name {Entry : Type} (datasets : gmap string Entry) : res string :=
  let names := (map_to_list datasets).*1 in
  let names := py_sort names in
  py_getitem names (-1).

(** [latestDs = cat.datasets[latest]]. *)
Definition latest_dataset {Entry : Type} (datasets : gmap string Entry) : res Entry :=
  latest <~ latest_name datasets ;;
  match datasets !! latest with
  | Some ds => Ok ds
  | None => Raise (KeyError latest)
  end.

(** The elements of [l] at the positions [skip], [skip + step],
    [skip + 2 * step], ... *)
Fixpoint every_nth {A : Type} (skip step : nat) (l : list A) : list A :=
  match l with
  | [] => []
  | x :: rest =>
      match skip with
      | 0 => x :: every_nth (step - 1) step rest
      | S k => every_nth k step rest
      end
  end.

(** [l[::step]] for a positive step; a step of zero raises. *)
Definition py_stride {A : Type} (step : nat) (l : list A) : res (list A) :=
  if Nat.eqb step 0 then Raise (ValueError "slice step cannot be zero")
  else Ok (every_nth 0 step l).

(** The variables of the opened file that the notebook reads. *)
Record RadarFile : Type := {
  rf_x : coords;
  rf_y : coords;
  rf_reflectivity : ndarray3;
  rf_time : coords
}.

(** A masked array: the data and the mask over it. *)
Record MaskedArray : Type := {
  ma_data : ndarray;
  ma_mask : list (list bool)
}.

(** The cell "Grab the data": with [xstride] and [ystride] as set there,
    [x = dataset.variables['x'][::xstride] * 1000.],
    [y = dataset.variables['y'][::ystride] * 1000.],
    [data = dataset.variables["Reflectivity"][0, 0::ystride, 0::xstride]],
    [data = np.ma.array(data, mask=data<=-30)]. *)
Definition grab_data (xstride ystride : nat) (file : RadarFile)
  : res (coords * coords * MaskedArray) :=
  xs <~ py_stride xstride (rf_x file) ;;
  let x := (fun v => PrimFloat.mul v 1000) <$> xs in
  ys <~ py_stride ystride (rf_y file) ;;
  let y := (fun v => PrimFloat.mul v 1000) <$> ys in
  frame <~ py_getitem (rf_reflectivity file) 0 ;;
  rows <~ py_stride ystride frame ;;
  let data := (fun row : coords => every_nth 0 xstride row) <$> rows in
  Ok (x, y, {| ma_data := data; ma_mask := np_less_equal data (-30) |}).

(** * Notions used to state the properties *)

(** [a] has [h] rows, each of length [w]. *)
Definition rect {A : Type} (h w : nat) (a : list (list A)) : Prop :=
  length a = h ∧ ∀ i row, a !! i = Some row → length row = w.

(** What the clipping does to one sample. *)
Definition clip_sample (eps fill x : float) : float :=
  if PrimFloat.leb x eps then fill else x.

(** A band after the clipping, and a sample after the clipping and the
    brightness enhancement. *)
Definition clipped (a : list (list float)) : list (list float) :=
  (fun row : list float => clip_sample 0.0001 1 <$> row) <$> a.

Definition enhanced (x : float) : float :=
  PrimFloat.sqrt (clip_sample 0.0001 1 x).

(** The exceptions of Python and numpy themselves. *)
Definition builtin_exn (e : exn) : Prop :=
  ∃ arg, e = UnboundLocalError arg ∨ e = TypeError arg ∨ e = ValueError arg.

(** The value a variable holds once [m] has run, or the exception [m]
    raised. *)
Definition var_after {V A : Type} (m : M V A) (locals : gmap string V)
  (name : string) : res (option V) :=
  match m locals with
  | Ok (_, locals') => Ok (locals' !! name)
  | Raise e => Raise e
  end.

(** A band whose samples all have one value. *)
Definition const_band (h w : nat) (v : float) : list (list float) :=
  replicate h (replicate w v).

(** Local variables holding three band arrays and nothing else. *)
Definition band_locals {DataArray Proj Datetime : Type}
  (r g b : list (list float)) : gmap string (@pyval DataArray Proj Datetime) :=
  <["red_data" := VArray r]>
    (<["blue_data" := VArray b]> (<["green_data" := VArray g]> ∅)).

(** The three raw bands of the end-to-end scenario. *)
Definition scenario_locals {DataArray Proj Datetime : Type}
  : gmap string (@pyval DataArray Proj Datetime) :=
  band_locals (const_band 4 4 4) (const_band 4 4 0) (const_band 4 4 16).

Definition demo_locals (r g b : list (list float))
  : gmap string (@pyval unit unit unit) :=
  band_locals r g b.

Fixpoint strictly_increasing (axis : list float) : bool :=
  match axis with
  | a :: rest =>
      match rest with
      | b :: _ => PrimFloat.ltb a b && strictly_increasing rest
      | [] => true
      end
  | [] => true
  end.

(** A coordinate axis as section 4.1 wants it: not empty, and strictly
    increasing or strictly decreasing. *)
Definition strictly_monotonic (axis : list float) : bool :=
  negb (Nat.eqb (length axis) 0)
  && (strictly_increasing axis || strictly_increasing (reverse axis)).

(** A 2x2 channel on increasing axes. *)
Definition sample_channel : Dataset :=
  {| ds_x := [0; 1]%float;
     ds_y := [0; 1]%float;
     ds_grid := [[1; 2]; [3; 4]]%float;
     start_date_time := "2018311180000" |}.

(** Target axes whose second row lies outside the sample channel. *)
Definition sample_target : Dataset :=
  {| ds_x := [0; 1]%float;
     ds_y := [0; 5]%float;
     ds_grid := [];
     start_date_time := "2018311180000" |}.

(** The surface [spline] takes the values of the grid at the nodes of
    the source, once the source axes are in ascending order: what makes
    it an interpolant. *)
Definition exact_at_nodes
    (spline : list float → list float → list (list float) → float → float → float)
    (x y : list float) (z : list (list float)) : Prop :=
  ∀ j i xv yv v,
    (sort_source x y z).1.1 !! i = Some xv →
    (sort_source x y z).1.2 !! j = Some yv →
    lookup2 (sort_source x y z).2 j i = Some v →
    spline (sort_source x y z).1.1 (sort_source x y z).1.2 (sort_source x y z).2 xv yv = v.

(** The grid with every row read from its end. *)
Definition mirror_columns (z : list (list float)) : list (list float) :=
  (fun row : list float => reverse row) <$> z.

(** What the resampler makes of a grid over its own axes: the columns
    mirrored when [x] is not increasing, the rows reversed when [y] is
    increasing. *)
Definition own_axes_grid (x y : list float) (z : list (list float))
  : list (list float) :=
  let z := if strictly_increasing x then z else mirror_columns z in
  if strictly_increasing y then reverse z else z.

(** The field of [sample_channel] stored with its [y] axis decreasing,
    as the GOES-16 grids are. *)
Definition descending_channel : Dataset :=
  {| ds_x := [0; 1]%float;
     ds_y := [1; 0]%float;
     ds_grid := [[3; 4]; [1; 2]]%float;
     start_date_time := "2018311180000" |}.

(** Target axes in the orientation of the GOES-16 grids, whose first
    row lies outside the sample channel. *)
Definition descending_target : Dataset :=
  {| ds_x := [0; 1]%float;
     ds_y := [5; 0]%float;
     ds_grid := [];
     start_date_time := "2018311180000" |}.

(** Stand-ins for the catalog, metpy and datetime in which every call
    succeeds. *)
Definition sample_catalog (url : string) : res (list Dataset) :=
  Ok [sample_channel; sample_channel].
Definition sample_parse_cf (ds : Dataset) (name : string) : res (list (list float)) :=
  Ok (ds_grid ds).
Definition sample_crs (da : list (list float)) : res string := Ok "geostationary".
Definition sample_strptime (text format : string) : res string := Ok text.

(** The interpolation as in the recorded run of the notebook: scipy
    cannot take the dataset as the grid. *)
Definition failing_interp2d (x y : list float) (z : Dataset) (fill_value : float)
  : res (list float → list float → res (list (list float))) :=
  Raise (TypeError "cannot directly convert an xarray.Dataset into a numpy array").

(** A stand-in for [strptime] that parses nothing and succeeds. *)
Definition unit_strptime (text format : string) : res unit := Ok tt.

Fixpoint count_up (n : nat) : float :=
  match n with
  | 0 => 0%float
  | S k => (count_up k + 1)%float
  end.

(** A radar file with one time step on a grid of 11 rows and 21 columns;
    the sample at row [j] and column [i] is [3 i + j - 60]. *)
Definition sample_radar_file : RadarFile :=
  {| rf_x := tabulate 21 (fun i => (count_up i - 10)%float);
     rf_y := tabulate 11 (fun j => count_up j);
     rf_reflectivity :=
       [tabulate 11 (fun j => tabulate 21 (fun i => (count_up (3 * i + j) - 60)%float))];
     rf_time := [0%float] |}.

(** A catalog of two datasets that differ. *)
Definition sample_listing (url : string) : res (list Dataset) :=
  Ok [sample_channel; sample_target].

(** Three 1x1 bands and the green dataset, as the variables of
    [make_RGB_data] would be once the bands were assigned. *)
Definition returning_locals : gmap string (@pyval unit unit unit) :=
  <["green_ds" := VDataset sample_channel]> (demo_locals [[4]] [[9]] [[16]])%float.

(** Module-level names with a [proj_var] among them. *)
Definition sample_globals : gmap string (@pyval unit unit unit) :=
  <["proj_var" := VInt 7]> ∅.

(** * Properties *)

(** ** Arrays: indexing, shapes, elementwise operations *)

Lemma has_shape_rect h w (a : list (list float)) :
  has_shape h w a = true ↔ rect h w a.
Proof.
  unfold has_shape, rect.
  rewrite andb_true_iff, Nat.eqb_eq, forallb_forall.
  split; intros [Hlen Hrows]; split; try done.
  - intros i row Hi. apply Nat.eqb_eq, Hrows.
    apply list_elem_of_In, list_elem_of_lookup. eauto.
  - intros row Hin. apply Nat.eqb_eq.
    apply list_elem_of_In, list_elem_of_lookup in Hin as [i Hi]. eauto.
Qed.

Lemma ext2 {A : Type} (a b : list (list A)) :
  length a = length b →
  (∀ i j, lookup2 a i j = lookup2 b i j) →
  a = b.
Proof.
  intros Hlen Hpt. apply list_eq. intros i.
  destruct (a !! i) as [ra|] eqn:Ha, (b !! i) as [rb|] eqn:Hb.
  - f_equal. apply list_eq. intros j.
    specialize (Hpt i j). unfold lookup2 in Hpt.
    by rewrite Ha, Hb in Hpt.
  - apply lookup_lt_Some in Ha. apply lookup_ge_None in Hb. lia.
  - apply lookup_ge_None in Ha. apply lookup_lt_Some in Hb. lia.
  - done.
Qed.

Lemma lookup2_fmap {A B : Type} (f : A → B) (a : list (list A)) i j :
  lookup2 ((fun row : list A => f <$> row) <$> a) i j = f <$> lookup2 a i j.
Proof.
  unfold lookup2. rewrite list_lookup_fmap.
  destruct (a !! i) as [row|]; simpl; [|done].
  by rewrite list_lookup_fmap.
Qed.

Lemma rect_fmap {A B : Type} (f : A → B) h w (a : list (list A)) :
  rect h w a → rect h w ((fun row : list A => f <$> row) <$> a).
Proof.
  intros [Hlen Hrows]. split.
  - by rewrite length_fmap.
  - intros i row. rewrite list_lookup_fmap.
    destruct (a !! i) as [r|] eqn:Hr; simpl; [|done].
    intros [= <-]. rewrite length_fmap. eauto.
Qed.

Lemma rect_lookup2 {A : Type} h w (a : list (list A)) i j :
  rect h w a → i < h → j < w → is_Some (lookup2 a i j).
Proof.
  intros [Hlen Hrows] Hi Hj. unfold lookup2.
  destruct (lookup_lt_is_Some_2 a i) as [row Hrow]; [lia|].
  rewrite Hrow. simpl. apply lookup_lt_is_Some_2.
  by rewrite (Hrows i row).
Qed.

Lemma lookup2_rect_lt {A : Type} h w (a : list (list A)) i j x :
  rect h w a → lookup2 a i j = Some x → i < h ∧ j < w.
Proof.
  intros [Hlen Hrows]. unfold lookup2.
  destruct (a !! i) as [row|] eqn:Hrow; simpl; [|done].
  intros Hj. pose proof (Hrows i row Hrow) as Hw.
  apply lookup_lt_Some in Hrow, Hj. lia.
Qed.

Lemma get2_lookup2 (a : list (list float)) i j x :
  lookup2 a i j = Some x → get2 a i j = x.
Proof. unfold get2. by intros ->. Qed.

Lemma rect_get2 h w (a : list (list float)) i j :
  rect h w a → i < h → j < w → lookup2 a i j = Some (get2 a i j).
Proof.
  intros Ha Hi Hj. destruct (rect_lookup2 h w a i j) as [x Hx]; try done.
  by rewrite (get2_lookup2 _ _ _ _ Hx).
Qed.

Lemma np_shape_rect h w (a : list (list float)) :
  rect h w a → np_shape a = (h, if Nat.eqb h 0 then 0 else w).
Proof.
  intros [Hlen Hrows]. unfold np_shape. rewrite Hlen. f_equal.
  destruct a as [|row a]; simpl in *; subst; [done|].
  simpl. apply (Hrows 0). done.
Qed.

Lemma lookup_tabulate {A : Type} n (f : nat → A) i :
  tabulate n f !! i = if decide (i < n) then Some (f i) else None.
Proof.
  unfold tabulate. rewrite list_lookup_fmap.
  case_decide.
  - by rewrite lookup_seq_lt.
  - by rewrite lookup_seq_ge by lia.
Qed.

Lemma length_tabulate {A : Type} n (f : nat → A) : length (tabulate n f) = n.
Proof. unfold tabulate. by rewrite length_fmap, length_seq. Qed.

Lemma rect_tabulate {A : Type} h w (f : nat → nat → A) :
  rect h w (tabulate h (fun i => tabulate w (f i))).
Proof.
  split; [apply length_tabulate|].
  intros i row. rewrite lookup_tabulate. case_decide; [|done].
  intros [= <-]. apply length_tabulate.
Qed.

Lemma lookup2_tabulate {A : Type} h w (f : nat → nat → A) i j :
  i < h → j < w →
  lookup2 (tabulate h (fun i => tabulate w (f i))) i j = Some (f i j).
Proof.
  intros Hi Hj. unfold lookup2. rewrite lookup_tabulate.
  rewrite decide_True by done. simpl.
  rewrite lookup_tabulate. by rewrite decide_True.
Qed.

Lemma bidx_lt d i : i < d → bidx d i = i.
Proof.
  unfold bidx. destruct (Nat.eqb_spec d 1); [lia|done].
Qed.

Lemma broadcast_dim_same n : broadcast_dim n n = Some n.
Proof. unfold broadcast_dim. by rewrite Nat.eqb_refl. Qed.

(** ** The masked assignment [a[np.where(a <= eps)] = v] *)

Lemma lookup2_alter_insert (a : list (list float)) i0 j0 v i j :
  lookup2 (alter (<[j0 := v]>) i0 a) i j
  = if decide ((i, j) = (i0, j0)) then (fun _ => v) <$> lookup2 a i j
    else lookup2 a i j.
Proof.
  unfold lookup2. destruct (decide (i = i0)) as [->|Hi].
  - rewrite list_lookup_alter_eq.
    destruct (a !! i0) as [row|]; simpl; [|by case_decide].
    destruct (decide (j = j0)) as [->|Hj].
    + rewrite decide_True by done.
      destruct (row !! j0) as [x|] eqn:Hx; simpl.
      * apply list_lookup_insert_eq. by apply lookup_lt_Some in Hx.
      * apply lookup_ge_None in Hx. apply lookup_ge_None.
        by rewrite length_insert.
    + rewrite decide_False by congruence.
      by rewrite list_lookup_insert_ne.
  - rewrite list_lookup_alter_ne by done.
    by rewrite decide_False by congruence.
Qed.

Lemma length_np_setitem a idx v : length (np_setitem a idx v) = length a.
Proof.
  unfold np_setitem. revert a.
  induction idx as [|ij idx IH]; intros a; simpl; [done|].
  by rewrite IH, length_alter.
Qed.

Lemma lookup2_np_setitem a idx v i j :
  lookup2 (np_setitem a idx v) i j
  = if decide ((i, j) ∈ idx) then (fun _ => v) <$> lookup2 a i j
    else lookup2 a i j.
Proof.
  unfold np_setitem. revert a.
  induction idx as [|[i0 j0] idx IH]; intros a.
  - case_decide as Hin; [by apply elem_of_nil in Hin|done].
  - cbn [foldl]. rewrite IH, lookup2_alter_insert. cbn [fst snd].
    destruct (decide ((i, j) ∈ idx)) as [Hin|Hin],
      (decide ((i, j) = (i0, j0))) as [Heq|Hne],
      (decide ((i, j) ∈ (i0, j0) :: idx)) as [Hin'|Hin'];
      try done;
      try (exfalso; apply Hin', elem_of_cons; by auto);
      try (by apply elem_of_cons in Hin' as [?|?]).
    by destruct (lookup2 a i j).
Qed.

Lemma elem_of_true_positions row k j :
  j ∈ true_positions k row ↔ k ≤ j ∧ row !! (j - k) = Some true.
Proof.
  revert k. induction row as [|b row IH]; intros k; simpl.
  - rewrite elem_of_nil. by split; [|intros [_ ?]].
  - rewrite elem_of_app, IH. split.
    + intros [Hhd|[Hle Hlk]].
      * destruct b; [|by apply elem_of_nil in Hhd].
        apply list_elem_of_singleton in Hhd as ->.
        by rewrite Nat.sub_diag.
      * split; [lia|]. by replace (j - k) with (S (j - S k)) by lia.
    + intros [Hle Hlk]. destruct (decide (j = k)) as [->|Hne].
      * rewrite Nat.sub_diag in Hlk. simpl in Hlk. injection Hlk as ->.
        left. by apply list_elem_of_singleton.
      * right. split; [lia|].
        by replace (j - k) with (S (j - S k)) in Hlk by lia.
Qed.

Lemma elem_of_np_where_from mask k i j :
  (i, j) ∈ np_where_from k mask ↔ k ≤ i ∧ lookup2 mask (i - k) j = Some true.
Proof.
  revert k. induction mask as [|row mask IH]; intros k; simpl.
  - rewrite elem_of_nil. unfold lookup2. by split; [|intros [_ ?]].
  - rewrite elem_of_app, IH, list_elem_of_fmap. split.
    + intros [(j' & [= -> ->] & Hj)|[Hle Hlk]].
      * apply elem_of_true_positions in Hj as [_ Hj].
        rewrite Nat.sub_0_r in Hj.
        split; [done|]. unfold lookup2. by rewrite Nat.sub_diag.
      * split; [lia|]. by replace (i - k) with (S (i - S k)) by lia.
    + intros [Hle Hlk]. destruct (decide (i = k)) as [->|Hne].
      * left. exists j. split; [done|].
        apply elem_of_true_positions. rewrite Nat.sub_0_r.
        split; [lia|]. unfold lookup2 in Hlk.
        by rewrite Nat.sub_diag in Hlk.
      * right. split; [lia|].
        by replace (i - k) with (S (i - S k)) in Hlk by lia.
Qed.

Lemma elem_of_np_where mask i j :
  (i, j) ∈ np_where mask ↔ lookup2 mask i j = Some true.
Proof.
  unfold np_where. rewrite elem_of_np_where_from, Nat.sub_0_r.
  split; [by intros [_ ?]|]. split; [lia|done].
Qed.

Lemma lookup2_clip a eps fill i j :
  lookup2 (np_setitem a (np_where (np_less_equal a eps)) fill) i j
  = clip_sample eps fill <$> lookup2 a i j.
Proof.
  rewrite lookup2_np_setitem. unfold clip_sample.
  destruct (decide ((i, j) ∈ np_where (np_less_equal a eps))) as [Hin|Hin];
    unfold np_less_equal in Hin;
    rewrite elem_of_np_where, lookup2_fmap in Hin;
    destruct (lookup2 a i j) as [x|]; simpl in *; try done.
  - injection Hin as ->. done.
  - destruct (PrimFloat.leb x eps); [by exfalso; apply Hin|done].
Qed.

Lemma np_setitem_clip a eps fill :
  np_setitem a (np_where (np_less_equal a eps)) fill
  = (fun row : list float => clip_sample eps fill <$> row) <$> a.
Proof.
  apply ext2.
  - by rewrite length_np_setitem, length_fmap.
  - intros i j. by rewrite lookup2_clip, lookup2_fmap.
Qed.

(** ** Elementwise sum and stacking of arrays of one shape *)

Lemma np_add_rect h w a b :
  rect h w a → rect h w b →
  ∃ c, np_add a b = Ok c ∧ rect h w c ∧
       ∀ i j, i < h → j < w →
         get2 c i j = PrimFloat.add (get2 a i j) (get2 b i j).
Proof.
  intros Ha Hb. unfold np_add.
  rewrite (np_shape_rect h w a Ha), (np_shape_rect h w b Hb).
  unfold broadcast_shapes. simpl. rewrite !broadcast_dim_same. simpl.
  eexists. split; [done|].
  destruct (Nat.eqb_spec h 0) as [->|Hh].
  - split; [split; [done|]; intros i row; by rewrite lookup_tabulate|].
    intros i j Hi. lia.
  - split; [apply rect_tabulate|].
    intros i j Hi Hj. unfold get2 at 1.
    rewrite lookup2_tabulate by done. simpl.
    by rewrite !bidx_lt.
Qed.

Lemma np_dstack_rect h w r g b :
  rect h w r → rect h w g → rect h w b →
  ∃ rgb, np_dstack [r; g; b] = Ok rgb ∧ rect h w rgb ∧
         ∀ i j, i < h → j < w →
           lookup2 rgb i j = Some [get2 r i j; get2 g i j; get2 b i j].
Proof.
  intros Hr Hg Hb. unfold np_dstack. cbv zeta.
  rewrite (np_shape_rect h w r Hr). cbn [forallb].
  rewrite (np_shape_rect h w g Hg), (np_shape_rect h w b Hb).
  unfold shape_eqb. simpl. rewrite !Nat.eqb_refl. simpl.
  eexists. split; [done|].
  destruct (Nat.eqb_spec h 0) as [->|Hh].
  - split; [split; [done|]; intros i row; by rewrite lookup_tabulate|].
    intros i j Hi. lia.
  - split; [apply rect_tabulate|].
    intros i j Hi Hj. by rewrite lookup2_tabulate.
Qed.

(** ** The statements of the band combiner *)

Section Combiner.

Context {DataArray Proj Datetime : Type}.
Local Abbreviation pyval := (@pyval DataArray Proj Datetime).
Implicit Types (locals : gmap string pyval) (r g b a : list (list float)).

Lemma bind_run {A B : Type} (m : M pyval A) (k : A → M pyval B) locals x locals' :
  m locals = Ok (x, locals') → bind m k locals = k x locals'.
Proof. unfold bind. by intros ->. Qed.

Lemma bind_raise {A B : Type} (m : M pyval A) (k : A → M pyval B) locals e :
  m locals = Raise e → bind m k locals = Raise e.
Proof. unfold bind. by intros ->. Qed.

Lemma bind_ok_inv {A B : Type} (m : M pyval A) (k : A → M pyval B) l out :
  bind m k l = Ok out → ∃ x l', m l = Ok (x, l') ∧ k x l' = Ok out.
Proof.
  unfold bind. destruct (m l) as [[x l']|e]; [|done]. eauto.
Qed.

Lemma store_fast_ok_inv name (v : pyval) l u l' :
  store_fast name v l = Ok (u, l') → l' = <[name := v]> l.
Proof. unfold store_fast. by intros [= _ <-]. Qed.

Lemma load_fast_ok_inv name (l : gmap string pyval) v l' :
  load_fast name l = Ok (v, l') → l' = l ∧ l !! name = Some v.
Proof.
  unfold load_fast. destruct (l !! name); [|done]. by intros [= <- <-].
Qed.

Lemma lift_ok_inv {A : Type} (m : res A) (l : gmap string pyval) x l' :
  lift m l = Ok (x, l') → l' = l ∧ m = Ok x.
Proof. unfold lift. destruct m; [|done]. by intros [= <- <-]. Qed.

Lemma load_array_run name locals a :
  locals !! name = Some (VArray a) → load_array name locals = Ok (a, locals).
Proof.
  intros H. unfold load_array, bind, load_fast. by rewrite H.
Qed.

Lemma load_array_unbound name locals :
  locals !! name = None →
  load_array name locals = Raise (UnboundLocalError name).
Proof.
  intros H. unfold load_array, bind, load_fast. by rewrite H.
Qed.

Lemma clip_stmt_run name locals a :
  locals !! name = Some (VArray a) →
  clip_stmt name locals = Ok (tt, <[name := VArray (clipped a)]> locals).
Proof.
  intros H. unfold clip_stmt.
  rewrite (bind_run _ _ _ _ _ (load_array_run _ _ _ H)).
  rewrite (bind_run _ _ _ _ _ (load_array_run _ _ _ H)).
  unfold store_fast. by rewrite np_setitem_clip.
Qed.

Lemma sqrt_stmt_run name locals a :
  locals !! name = Some (VArray a) →
  sqrt_stmt name locals = Ok (tt, <[name := VArray (np_sqrt a)]> locals).
Proof.
  intros H. unfold sqrt_stmt.
  by rewrite (bind_run _ _ _ _ _ (load_array_run _ _ _ H)).
Qed.

Lemma rect_clipped h w a : rect h w a → rect h w (clipped a).
Proof. apply rect_fmap. Qed.

Lemma rect_np_sqrt h w a : rect h w a → rect h w (np_sqrt a).
Proof. apply rect_fmap. Qed.

Lemma rect_np_mul_scalar h w a s : rect h w a → rect h w (np_mul_scalar a s).
Proof. apply rect_fmap. Qed.

Lemma get2_fmap (f : float → float) h w a i j :
  rect h w a → i < h → j < w →
  get2 ((fun row : list float => f <$> row) <$> a) i j = f (get2 a i j).
Proof.
  intros Ha Hi Hj. unfold get2 at 1.
  by rewrite lookup2_fmap, (rect_get2 h w a i j).
Qed.

Lemma clip_maxes_run locals r g b :
  locals !! "red_data" = Some (VArray r) →
  locals !! "blue_data" = Some (VArray b) →
  locals !! "green_data" = Some (VArray g) →
  clip_maxes locals
  = Ok (tt, <["green_data" := VArray (clipped g)]>
              (<["blue_data" := VArray (clipped b)]>
                 (<["red_data" := VArray (clipped r)]> locals))).
Proof.
  intros Hr Hb Hg. unfold clip_maxes.
  erewrite bind_run by (by apply clip_stmt_run).
  erewrite bind_run by (apply clip_stmt_run; by simplify_map_eq).
  apply clip_stmt_run. by simplify_map_eq.
Qed.

(** The three bands after clipping and enhancement. *)
Lemma prepare_run locals r g b :
  locals !! "red_data" = Some (VArray r) →
  locals !! "blue_data" = Some (VArray b) →
  locals !! "green_data" = Some (VArray g) →
  ∃ locals',
    (clip_maxes ;;; brightness_enhancement) locals = Ok (tt, locals') ∧
    locals' !! "red_data" = Some (VArray (np_sqrt (clipped r))) ∧
    locals' !! "blue_data" = Some (VArray (np_sqrt (clipped b))) ∧
    locals' !! "green_data" = Some (VArray (np_sqrt (clipped g))) ∧
    ∀ name, name ≠ "red_data" → name ≠ "blue_data" → name ≠ "green_data" →
            locals' !! name = locals !! name.
Proof.
  intros Hr Hb Hg. eexists. split.
  - unfold clip_maxes, brightness_enhancement.
    erewrite bind_run; cycle 1.
    { erewrite bind_run by (by apply clip_stmt_run).
      erewrite bind_run by (apply clip_stmt_run; by simplify_map_eq).
      apply clip_stmt_run. by simplify_map_eq. }
    erewrite bind_run by (apply sqrt_stmt_run; by simplify_map_eq).
    erewrite bind_run by (apply sqrt_stmt_run; by simplify_map_eq).
    apply sqrt_stmt_run. by simplify_map_eq.
  - repeat split; try by simplify_map_eq.
    intros name ? ? ?. by simplify_map_eq.
Qed.

Lemma fake_green_with_run wg wb wr h w locals r g b :
  locals !! "red_data" = Some (VArray r) →
  locals !! "blue_data" = Some (VArray b) →
  locals !! "green_data" = Some (VArray g) →
  rect h w r → rect h w g → rect h w b →
  ∃ g',
    fake_green_with wg wb wr locals
      = Ok (tt, <["green_data" := VArray g']> locals) ∧
    rect h w g' ∧
    ∀ i j, i < h → j < w →
      get2 g' i j = (get2 g i j * wg + get2 b i j * wb + get2 r i j * wr)%float.
Proof.
  intros Hr Hb Hg Rr Rg Rb. unfold fake_green_with.
  destruct (np_add_rect h w (np_mul_scalar g wg) (np_mul_scalar b wb))
    as (gb & Hgb & Rgb & Pgb); [by apply rect_np_mul_scalar..|].
  destruct (np_add_rect h w gb (np_mul_scalar r wr))
    as (gbr & Hgbr & Rgbr & Pgbr); [done|by apply rect_np_mul_scalar|].
  exists gbr.
  rewrite (bind_run _ _ _ _ _ (load_array_run _ _ _ Hg)).
  rewrite (bind_run _ _ _ _ _ (load_array_run _ _ _ Hb)).
  rewrite Hgb. unfold bind at 1, lift at 1.
  rewrite (bind_run _ _ _ _ _ (load_array_run _ _ _ Hr)).
  rewrite Hgbr. unfold bind at 1, lift at 1.
  split; [done|]. split; [done|].
  intros i j Hi Hj. rewrite Pgbr, Pgb by done.
  unfold np_mul_scalar. by rewrite !(get2_fmap _ h w).
Qed.

Lemma stack_rgb_run h w locals r g b :
  locals !! "red_data" = Some (VArray r) →
  locals !! "blue_data" = Some (VArray b) →
  locals !! "green_data" = Some (VArray g) →
  rect h w r → rect h w g → rect h w b →
  ∃ rgb,
    stack_rgb locals = Ok (tt, <["rgb_data" := VArray3 rgb]> locals) ∧
    rect h w rgb ∧
    ∀ i j, i < h → j < w →
      lookup2 rgb i j = Some [get2 r i j; get2 g i j; get2 b i j].
Proof.
  intros Hr Hb Hg Rr Rg Rb. unfold stack_rgb.
  destruct (np_dstack_rect h w r g b) as (rgb & Hrgb & Rrgb & Prgb); try done.
  exists rgb.
  rewrite (bind_run _ _ _ _ _ (load_array_run _ _ _ Hr)).
  rewrite (bind_run _ _ _ _ _ (load_array_run _ _ _ Hg)).
  rewrite (bind_run _ _ _ _ _ (load_array_run _ _ _ Hb)).
  rewrite Hrgb. unfold bind at 1, lift at 1. done.
Qed.

(** The whole combiner on three bands of one shape. *)
Lemma band_combiner_with_run wg wb wr h w locals r g b :
  locals !! "red_data" = Some (VArray r) →
  locals !! "blue_data" = Some (VArray b) →
  locals !! "green_data" = Some (VArray g) →
  rect h w r → rect h w g → rect h w b →
  ∃ locals' rgb,
    band_combiner_with wg wb wr locals = Ok (tt, locals') ∧
    locals' !! "rgb_data" = Some (VArray3 rgb) ∧
    rect h w rgb ∧
    ∀ i j, i < h → j < w →
      lookup2 rgb i j
      = Some [enhanced (get2 r i j);
              (enhanced (get2 g i j) * wg + enhanced (get2 b i j) * wb
               + enhanced (get2 r i j) * wr)%float;
              enhanced (get2 b i j)].
Proof.
  intros Hr Hb Hg Rr Rg Rb.
  destruct (prepare_run locals r g b) as (l1 & Hprep & Hr1 & Hb1 & Hg1 & _);
    try done.
  assert (Rr1 : rect h w (np_sqrt (clipped r)))
    by by apply rect_np_sqrt, rect_clipped.
  assert (Rg1 : rect h w (np_sqrt (clipped g)))
    by by apply rect_np_sqrt, rect_clipped.
  assert (Rb1 : rect h w (np_sqrt (clipped b)))
    by by apply rect_np_sqrt, rect_clipped.
  destruct (fake_green_with_run wg wb wr h w l1 _ _ _ Hr1 Hb1 Hg1)
    as (g' & Hfake & Rg' & Pg'); try done.
  destruct (stack_rgb_run h w (<["green_data" := VArray g']> l1)
              (np_sqrt (clipped r)) g' (np_sqrt (clipped b)))
    as (rgb & Hstack & Rrgb & Prgb); try done; try by simplify_map_eq.
  eexists _, rgb. split; [|split; [|split; [done|]]].
  - unfold band_combiner_with.
    unfold bind in Hprep.
    unfold bind at 1.
    destruct (clip_maxes locals) as [[[] l0]|e]; [|discriminate Hprep].
    unfold bind at 1. rewrite Hprep.
    unfold bind at 1. rewrite Hfake.
    apply Hstack.
  - by simplify_map_eq.
  - intros i j Hi Hj. rewrite Prgb, Pg' by done.
    unfold np_sqrt, clipped, enhanced.
    by rewrite !(get2_fmap _ h w) by (done || by apply rect_fmap).
Qed.

(** *** The exceptions the combiner can raise *)

Lemma bind_raise_inv {A B : Type} (m : M pyval A) (k : A → M pyval B) l e :
  bind m k l = Raise e →
  m l = Raise e ∨ ∃ x l', m l = Ok (x, l') ∧ k x l' = Raise e.
Proof.
  unfold bind. destruct (m l) as [[x l']|e']; intros H.
  - right. by exists x, l'.
  - left. by injection H as ->.
Qed.

Lemma load_array_raise name locals e :
  load_array name locals = Raise e → builtin_exn e.
Proof.
  unfold load_array, bind, load_fast, lift, as_array, builtin_exn.
  destruct (locals !! name) as [[]|]; intros [= <-]; eauto.
Qed.

Lemma np_add_raise a b e :
  np_add a b = Raise e →
  e = ValueError "operands could not be broadcast together".
Proof.
  unfold np_add.
  destruct (broadcast_shapes _ _) as [[h w]|]; by intros [= <-].
Qed.

Lemma np_dstack_raise arrs e : np_dstack arrs = Raise e → builtin_exn e.
Proof.
  unfold np_dstack, builtin_exn. destruct arrs as [|a0 rest].
  - intros [= <-]. eauto.
  - destruct (forallb _ rest); intros [= <-]. eauto.
Qed.

Lemma lift_raise {A : Type} (r : res A) locals e :
  lift r locals = Raise e → r = Raise e.
Proof. unfold lift. destruct r; by intros [= <-]. Qed.

Ltac raise_inv :=
  repeat match goal with
    | H : bind _ _ _ = Raise _ |- _ =>
        apply bind_raise_inv in H as [H|(? & ? & ? & H)]
    | H : load_array _ _ = Raise _ |- _ => by apply load_array_raise in H
    | H : lift _ _ = Raise _ |- _ => apply lift_raise in H
    | H : np_add _ _ = Raise _ |- _ =>
        apply np_add_raise in H as ->; unfold builtin_exn; by eauto
    | H : np_dstack _ = Raise _ |- _ => by apply np_dstack_raise in H
    | H : store_fast _ _ _ = Raise _ |- _ => discriminate H
    end.

Lemma band_combiner_with_raise wg wb wr locals e :
  band_combiner_with wg wb wr locals = Raise e → builtin_exn e.
Proof.
  unfold band_combiner_with, clip_maxes, brightness_enhancement,
    fake_green_with, stack_rgb, clip_stmt, sqrt_stmt.
  intros H. raise_inv.
Qed.

(** None of the validation errors of the specification is among them. *)
Lemma builtin_exn_cls cls arg :
  builtin_exn (Exn cls arg) →
  cls = "UnboundLocalError" ∨ cls = "TypeError" ∨ cls = "ValueError".
Proof.
  intros [a [H|[H|H]]]; injection H as -> _; auto.
Qed.

End Combiner.

(** ** [make_RGB_data] as a whole *)

Section MakeRGB.

Context {Date CatalogEntry DataArray Proj Datetime : Type}.
Variable strftime_Ymd : Date → string.
Variable TDSCatalog : string → res (list CatalogEntry).
Variable remote_access : CatalogEntry → res Dataset.
Variable parse_cf : Dataset → string → res DataArray.
Variable cartopy_crs : DataArray → res Proj.
Variable interp2d :
  list float → list float → Dataset → float →
  res (list float → list float → res (list (list float))).
Variable strptime : string → string → res Datetime.
Local Abbreviation pyval := (@pyval DataArray Proj Datetime).
Variable globals : gmap string pyval.

Local Abbreviation load_channels' :=
  (load_channels strftime_Ymd TDSCatalog remote_access parse_cf cartopy_crs
     interp2d).

Ltac run_inv :=
  repeat match goal with
    | H : bind _ _ _ = Ok _ |- _ =>
        apply bind_ok_inv in H as (? & ? & ? & H)
    | H : store_fast _ _ _ = Ok _ |- _ =>
        apply store_fast_ok_inv in H; subst
    | H : load_fast _ _ = Ok _ |- _ =>
        apply load_fast_ok_inv in H as [-> ?]
    | H : lift _ _ = Ok _ |- _ =>
        apply lift_ok_inv in H as [-> ?]
    | H : load_int _ _ = Ok _ |- _ => unfold load_int in H
    | H : load_dataset _ _ = Ok _ |- _ => unfold load_dataset in H
    | H : load_dataarray _ _ = Ok _ |- _ => unfold load_dataarray in H
    end.

(** When the statements before the clipping have all run, [red_data]
    holds the resampled red band and neither [blue_data] nor
    [green_data] has been assigned. *)
Lemma load_channels_locals date region idx (locals : gmap string pyval) :
  load_channels' date region idx ∅ = Ok (tt, locals) →
  (∃ a, locals !! "red_data" = Some (VArray a)) ∧
  locals !! "blue_data" = None ∧
  locals !! "green_data" = None.
Proof.
  unfold load_channels. intros H. run_inv.
  repeat split; [eexists|..];
    repeat (rewrite lookup_insert_eq || rewrite lookup_insert_ne by done);
    done.
Qed.

Local Abbreviation make_RGB_data' :=
  (make_RGB_data strftime_Ymd TDSCatalog remote_access parse_cf cartopy_crs
     interp2d strptime globals).

Lemma clip_stmt_unbound name (locals : gmap string pyval) :
  locals !! name = None →
  clip_stmt name locals = Raise (UnboundLocalError name).
Proof.
  intros H. unfold clip_stmt.
  by rewrite (bind_raise _ _ _ _ (load_array_unbound _ _ H)).
Qed.

(** The combiner, entered with only [red_data] assigned, stops at the
    second clipping statement. *)
Lemma band_combiner_unbound_blue (locals : gmap string pyval) a :
  locals !! "red_data" = Some (VArray a) →
  locals !! "blue_data" = None →
  band_combiner locals = Raise (UnboundLocalError "blue_data").
Proof.
  intros Hr Hb. unfold band_combiner, band_combiner_with.
  apply bind_raise. unfold clip_maxes.
  rewrite (bind_run _ _ _ _ _ (clip_stmt_run _ _ _ Hr)).
  apply bind_raise, clip_stmt_unbound.
  by rewrite lookup_insert_ne.
Qed.

(** C4. Whenever [make_RGB_data] gets as far as the clipping, the first
    clipping statement (on [red_data]) runs and the second one raises
    [UnboundLocalError] for [blue_data]: neither [blue_data] nor
    [green_data] is assigned at that point.  So the call raises that
    error, and for no input at all does [make_RGB_data] return. *)
Theorem make_RGB_data_never_returns date region idx :
  (∀ result, make_RGB_data' date region idx ≠ Ok result) ∧
  (∀ locals : gmap string pyval,
     load_channels' date region idx ∅ = Ok (tt, locals) →
     locals !! "blue_data" = None ∧
     locals !! "green_data" = None ∧
     (∃ locals', clip_stmt "red_data" locals = Ok (tt, locals') ∧
        clip_stmt "blue_data" locals'
        = Raise (UnboundLocalError "blue_data")) ∧
     make_RGB_data' date region idx
     = Raise (UnboundLocalError "blue_data")).
Proof.
  assert (Hreach : ∀ locals : gmap string pyval,
             load_channels' date region idx ∅ = Ok (tt, locals) →
             make_RGB_data' date region idx
             = Raise (UnboundLocalError "blue_data")).
  { intros locals Hload.
    destruct (load_channels_locals _ _ _ _ Hload) as ([a Hr] & Hb & _).
    unfold make_RGB_data.
    rewrite (bind_run _ _ _ _ _ Hload).
    by rewrite (bind_raise _ _ _ _ (band_combiner_unbound_blue _ _ Hr Hb)). }
  split.
  - intros result Hres.
    destruct (load_channels' date region idx ∅) as [[[] locals]|e] eqn:Hload.
    + by rewrite (Hreach locals) in Hres.
    + unfold make_RGB_data in Hres.
      by rewrite (bind_raise _ _ _ _ Hload) in Hres.
  - intros locals Hload.
    destruct (load_channels_locals _ _ _ _ Hload) as ([a Hr] & Hb & Hg).
    split; [done|]. split; [done|]. split; [|by apply (Hreach locals)].
    eexists. split; [by apply clip_stmt_run|].
    apply clip_stmt_unbound. by rewrite lookup_insert_ne.
Qed.

End MakeRGB.

(** ** The band combiner: clipping, enhancement, synthesis, stacking *)

Section BandCombiner.

Context {DataArray Proj Datetime : Type}.
Local Abbreviation pyval := (@pyval DataArray Proj Datetime).
Implicit Types (locals : gmap string pyval) (r g b : list (list float)).

(** C2. The clipping statements, run on any three band arrays, replace
    in each band exactly the samples that are [<= 0.0001] by [1] and
    keep every other sample (a NaN included); the mask of a band is
    computed from that band's own samples, and the shape is kept. *)
Theorem clipping_replaces_degenerate_samples locals r g b :
  locals !! "red_data" = Some (VArray r) →
  locals !! "blue_data" = Some (VArray b) →
  locals !! "green_data" = Some (VArray g) →
  ∃ locals' r' g' b',
    clip_maxes locals = Ok (tt, locals') ∧
    locals' !! "red_data" = Some (VArray r') ∧
    locals' !! "green_data" = Some (VArray g') ∧
    locals' !! "blue_data" = Some (VArray b') ∧
    (length r' = length r ∧ length g' = length g ∧ length b' = length b) ∧
    ∀ i j,
      let clip x := if PrimFloat.leb x 0.0001 then 1%float else x in
      lookup2 r' i j = clip <$> lookup2 r i j ∧
      lookup2 g' i j = clip <$> lookup2 g i j ∧
      lookup2 b' i j = clip <$> lookup2 b i j.
Proof.
  intros Hr Hb Hg.
  exists (<["green_data" := VArray (clipped g)]>
            (<["blue_data" := VArray (clipped b)]>
               (<["red_data" := VArray (clipped r)]> locals))),
    (clipped r), (clipped g), (clipped b).
  split; [by apply clip_maxes_run|].
  do 3 (split; [by simplify_map_eq|]).
  split; [unfold clipped; by rewrite !length_fmap|].
  intros i j clip. unfold clipped. by rewrite !lookup2_fmap.
Qed.

(** C5. Stacking three bands of shape [(h, w)] gives one array of shape
    [(h, w, 3)] whose pixel [(i, j)] is [red, green, blue] in that
    order, each value exactly as it is in its band: nothing is clipped
    to [[0, 1]]. *)
Theorem stacking_is_channel_last_and_unclipped locals r g b h w :
  locals !! "red_data" = Some (VArray r) →
  locals !! "blue_data" = Some (VArray b) →
  locals !! "green_data" = Some (VArray g) →
  has_shape h w r = true → has_shape h w g = true → has_shape h w b = true →
  ∃ rgb,
    stack_rgb locals = Ok (tt, <["rgb_data" := VArray3 rgb]> locals) ∧
    length rgb = h ∧
    (∀ i row, rgb !! i = Some row → length row = w) ∧
    (∀ i j px, lookup2 rgb i j = Some px → length px = 3) ∧
    ∀ i j x y z,
      lookup2 r i j = Some x → lookup2 g i j = Some y → lookup2 b i j = Some z →
      lookup2 rgb i j = Some [x; y; z].
Proof.
  intros Hr Hb Hg Rr%has_shape_rect Rg%has_shape_rect Rb%has_shape_rect.
  destruct (stack_rgb_run h w locals r g b) as (rgb & Hrun & Rrgb & Prgb);
    try done.
  exists rgb. split; [done|]. split; [apply Rrgb|]. split; [apply Rrgb|].
  split.
  - intros i j px Hpx.
    destruct (lookup2_rect_lt h w rgb i j px Rrgb Hpx) as [Hi Hj].
    rewrite Prgb in Hpx by done. by injection Hpx as <-.
  - intros i j x y z Hx Hy Hz.
    destruct (lookup2_rect_lt h w r i j x Rr Hx) as [Hi Hj].
    rewrite Prgb by done.
    by rewrite (get2_lookup2 _ _ _ _ Hx), (get2_lookup2 _ _ _ _ Hy),
      (get2_lookup2 _ _ _ _ Hz).
Qed.

(** The composite pixel computed from the three raw samples. *)
Lemma band_combiner_with_pixel wg wb wr locals r g b h w :
  locals !! "red_data" = Some (VArray r) →
  locals !! "blue_data" = Some (VArray b) →
  locals !! "green_data" = Some (VArray g) →
  has_shape h w r = true → has_shape h w g = true → has_shape h w b = true →
  ∃ locals' rgb,
    band_combiner_with wg wb wr locals = Ok (tt, locals') ∧
    locals' !! "rgb_data" = Some (VArray3 rgb) ∧
    rect h w rgb ∧
    ∀ i j x y z,
      lookup2 r i j = Some x → lookup2 g i j = Some y → lookup2 b i j = Some z →
      lookup2 rgb i j
      = Some [enhanced x;
              (enhanced y * wg + enhanced z * wb + enhanced x * wr)%float;
              enhanced z].
Proof.
  intros Hr Hb Hg Rr%has_shape_rect Rg%has_shape_rect Rb%has_shape_rect.
  destruct (band_combiner_with_run wg wb wr h w locals r g b)
    as (locals' & rgb & Hrun & Hrgb & Rrgb & Prgb); try done.
  exists locals', rgb. do 3 (split; [done|]).
  intros i j x y z Hx Hy Hz.
  destruct (lookup2_rect_lt h w r i j x Rr Hx) as [Hi Hj].
  rewrite Prgb by done.
  by rewrite (get2_lookup2 _ _ _ _ Hx), (get2_lookup2 _ _ _ _ Hy),
    (get2_lookup2 _ _ _ _ Hz).
Qed.

(** C10. At a pixel where the three raw samples are all [<= 0.0001] the
    composite is exactly [1, 1, 1]: the fill value 1 is its own square
    root, and [1 * 0.1 + 1 * 0.45 + 1 * 0.45] is [1] in binary64 as
    well. *)
Theorem fill_pixels_pass_through locals r g b h w i j xr xg xb :
  locals !! "red_data" = Some (VArray r) →
  locals !! "blue_data" = Some (VArray b) →
  locals !! "green_data" = Some (VArray g) →
  has_shape h w r = true → has_shape h w g = true → has_shape h w b = true →
  lookup2 r i j = Some xr → lookup2 g i j = Some xg → lookup2 b i j = Some xb →
  PrimFloat.leb xr 0.0001 = true →
  PrimFloat.leb xg 0.0001 = true →
  PrimFloat.leb xb 0.0001 = true →
  ∃ locals' rgb,
    band_combiner locals = Ok (tt, locals') ∧
    locals' !! "rgb_data" = Some (VArray3 rgb) ∧
    lookup2 rgb i j = Some [1; 1; 1]%float ∧
    PrimFloat.sqrt 1 = 1%float ∧
    (1 * 0.1 + 1 * 0.45 + 1 * 0.45 = 1)%float.
Proof.
  intros Hr Hb Hg Sr Sg Sb Hxr Hxg Hxb Lr Lg Lb.
  destruct (band_combiner_with_pixel 0.1 0.45 0.45 locals r g b h w)
    as (locals' & rgb & Hrun & Hrgb & _ & Prgb); try done.
  exists locals', rgb. split; [done|]. split; [done|].
  split; [|by split].
  rewrite (Prgb i j xr xg xb) by done.
  unfold enhanced, clip_sample. by rewrite Lr, Lg, Lb.
Qed.

Lemma has_shape_const_band h w v : has_shape h w (const_band h w v) = true.
Proof.
  apply has_shape_rect. unfold const_band. split.
  - apply length_replicate.
  - intros i row [-> _]%lookup_replicate. apply length_replicate.
Qed.

Lemma lookup2_const_band h w v i j :
  i < h → j < w → lookup2 (const_band h w v) i j = Some v.
Proof.
  intros Hi Hj. unfold lookup2, const_band.
  rewrite (lookup_replicate_2 h _ i Hi). simpl.
  by apply lookup_replicate_2.
Qed.

(** C1, as amended.  On three enhanced bands of one shape the synthesis
    statement computes, pixel by pixel, [green * 0.1 + blue * 0.45 +
    red * 0.45] in binary64, summed in that order.  In the scenario of
    constant 4x4 raw bands red = 4, blue = 16, green = 0 the raw green 0
    is clipped to 1 before the square root, so the composite pixel is
    [2, 2.8000000000000003, 4] everywhere, and the composite has shape
    [(4, 4, 3)]. *)
Theorem synthesized_green_is_weighted_sum :
  (∀ locals r g b h w,
     locals !! "red_data" = Some (VArray r) →
     locals !! "blue_data" = Some (VArray b) →
     locals !! "green_data" = Some (VArray g) →
     has_shape h w r = true → has_shape h w g = true →
     has_shape h w b = true →
     ∃ g',
       fake_green locals = Ok (tt, <["green_data" := VArray g']> locals) ∧
       has_shape h w g' = true ∧
       ∀ i j x y z,
         lookup2 r i j = Some x → lookup2 g i j = Some y →
         lookup2 b i j = Some z →
         lookup2 g' i j = Some (y * 0.1 + z * 0.45 + x * 0.45)%float) ∧
  (∃ locals' rgb,
     band_combiner scenario_locals = Ok (tt, locals') ∧
     locals' !! "rgb_data" = Some (VArray3 rgb) ∧
     np_shape3 rgb = (4, 4, 3) ∧
     ∀ i j, i < 4 → j < 4 →
       lookup2 rgb i j = Some [2; 2.8000000000000003; 4]%float).
Proof.
  split.
  - intros locals r g b h w Hr Hb Hg
      Rr%has_shape_rect Rg%has_shape_rect Rb%has_shape_rect.
    destruct (fake_green_with_run 0.1 0.45 0.45 h w locals r g b)
      as (g' & Hrun & Rg' & Pg'); try done.
    exists g'. split; [done|]. split; [by apply has_shape_rect|].
    intros i j x y z Hx Hy Hz.
    destruct (lookup2_rect_lt h w r i j x Rr Hx) as [Hi Hj].
    rewrite (rect_get2 h w g' i j), Pg' by done.
    by rewrite (get2_lookup2 _ _ _ _ Hx), (get2_lookup2 _ _ _ _ Hy),
      (get2_lookup2 _ _ _ _ Hz).
  - destruct (band_combiner_with_pixel 0.1 0.45 0.45 scenario_locals
                (const_band 4 4 4) (const_band 4 4 0) (const_band 4 4 16) 4 4)
      as (locals' & rgb & Hrun & Hrgb & Rrgb & Prgb);
      try apply has_shape_const_band; try done.
    assert (Hpx : ∀ i j, i < 4 → j < 4 →
              lookup2 rgb i j = Some [2; 2.8000000000000003; 4]%float).
    { intros i j Hi Hj.
      by rewrite (Prgb i j 4 0 16)%float by by apply lookup2_const_band. }
    exists locals', rgb. do 2 (split; [done|]). split; [|done].
    pose proof (Hpx 0 0) as H00. destruct Rrgb as [Hlen Hrows].
    unfold np_shape3, lookup2 in *.
    destruct rgb as [|row0 rgb]; [done|]. simpl in *.
    rewrite Hlen, (Hrows 0 row0) by done.
    destruct row0 as [|px row0]; simpl in *; [by specialize (H00 ltac:(lia) ltac:(lia))|].
    specialize (H00 ltac:(lia) ltac:(lia)). by injection H00 as ->.
Qed.

(** C8, as amended.  The combiner has no check for non-finite values.
    On three bands of one shape it always produces a composite; a NaN
    or a positive infinity in the red or in the blue band is not
    clipped (it is not [<= 0.0001]), is its own square root, and shows
    up unchanged in that band of the composite.  No exception named
    [NonFiniteValueError] is ever raised. *)
Theorem non_finite_values_pass_through locals r g b h w :
  locals !! "red_data" = Some (VArray r) →
  locals !! "blue_data" = Some (VArray b) →
  locals !! "green_data" = Some (VArray g) →
  has_shape h w r = true → has_shape h w g = true → has_shape h w b = true →
  (∃ locals' rgb,
     band_combiner locals = Ok (tt, locals') ∧
     locals' !! "rgb_data" = Some (VArray3 rgb) ∧
     ∀ i j v, v = nan ∨ v = infinity →
       (lookup2 r i j = Some v →
        ∃ y z, lookup2 rgb i j = Some [v; y; z]) ∧
       (lookup2 b i j = Some v →
        ∃ x y, lookup2 rgb i j = Some [x; y; v])) ∧
  (∀ locals0 cls arg,
     band_combiner locals0 = Raise (Exn cls arg) →
     cls ≠ "NonFiniteValueError").
Proof.
  intros Hr Hb Hg Sr Sg Sb. split.
  - destruct (band_combiner_with_pixel 0.1 0.45 0.45 locals r g b h w)
      as (locals' & rgb & Hrun & Hrgb & Rrgb & Prgb); try done.
    exists locals', rgb. do 2 (split; [done|]).
    pose proof Sr as Rr%has_shape_rect.
    pose proof Sg as Rg%has_shape_rect.
    pose proof Sb as Rb%has_shape_rect.
    intros i j v Hv. split; intros Hlk.
    + destruct (lookup2_rect_lt h w r i j v Rr Hlk) as [Hi Hj].
      rewrite (Prgb i j v (get2 g i j) (get2 b i j))
        by (done || by apply (rect_get2 h w)).
      destruct Hv as [-> | ->]; by eexists _, _.
    + destruct (lookup2_rect_lt h w b i j v Rb Hlk) as [Hi Hj].
      rewrite (Prgb i j (get2 r i j) (get2 g i j) v)
        by (done || by apply (rect_get2 h w)).
      destruct Hv as [-> | ->]; by eexists _, _.
  - intros locals0 cls arg Hraise ->.
    apply band_combiner_with_raise, builtin_exn_cls in Hraise.
    by destruct Hraise as [?|[?|?]].
Qed.

Lemma np_shape_fmap (f : float → float) (a : list (list float)) :
  np_shape ((fun row : list float => f <$> row) <$> a) = np_shape a.
Proof.
  unfold np_shape. rewrite length_fmap. f_equal.
  destruct a as [|row a]; simpl; [done|]. by rewrite length_fmap.
Qed.

Lemma np_shape_prepared (a : list (list float)) s :
  np_shape (np_mul_scalar (np_sqrt (clipped a)) s) = np_shape a.
Proof.
  unfold np_mul_scalar, np_sqrt, clipped. by rewrite !np_shape_fmap.
Qed.

Lemma np_add_incompatible a b :
  broadcast_shapes (np_shape a) (np_shape b) = None →
  np_add a b = Raise (ValueError "operands could not be broadcast together").
Proof. unfold np_add. by intros ->. Qed.





Lemma np_shape_no_rows (a : list (list float)) :
  (np_shape a).1 = 0 → (np_shape a).2 = 0.
Proof. unfold np_shape. by destruct a. Qed.

Lemma np_shape_tabulate (h w : nat) (f : nat → nat → float) :
  (h = 0 → w = 0) →
  np_shape (tabulate h (fun i => tabulate w (f i))) = (h, w).
Proof.
  intros Hzero. unfold np_shape. rewrite length_tabulate. f_equal.
  destruct h as [|h]; [by rewrite Hzero|].
  unfold tabulate at 1. simpl. apply length_tabulate.
Qed.

Lemma broadcast_dim_zero m n k :
  broadcast_dim m n = Some k → m = 0 ∨ n = 0 → k = 0.
Proof.
  unfold broadcast_dim.
  destruct (Nat.eqb_spec m n), (Nat.eqb_spec m 1), (Nat.eqb_spec n 1);
    intros [= <-]; lia.
Qed.

Lemma broadcast_dim_zero_inv m n :
  broadcast_dim m n = Some 0 → m = 0 ∨ n = 0.
Proof.
  unfold broadcast_dim.
  destruct (Nat.eqb_spec m n), (Nat.eqb_spec m 1), (Nat.eqb_spec n 1);
    intros [= ?]; lia.
Qed.

(** The sum of two arrays has the broadcast shape. *)
Lemma np_add_shape a b :
  match broadcast_shapes (np_shape a) (np_shape b) with
  | Some s => ∃ c, np_add a b = Ok c ∧ np_shape c = s
  | None => np_add a b = Raise (ValueError "operands could not be broadcast together")
  end.
Proof.
  unfold np_add.
  destruct (broadcast_shapes (np_shape a) (np_shape b)) as [[h w]|] eqn:Hs;
    [|done].
  eexists. split; [done|]. apply np_shape_tabulate. intros ->.
  unfold broadcast_shapes in Hs.
  destruct (broadcast_dim (np_shape a).1 (np_shape b).1) as [h'|] eqn:Hh;
    [|done].
  destruct (broadcast_dim (np_shape a).2 (np_shape b).2) as [w'|] eqn:Hw;
    [|done].
  simpl in Hs. injection Hs as -> ->.
  apply (broadcast_dim_zero _ _ _ Hw).
  destruct (broadcast_dim_zero_inv _ _ Hh) as [H0|H0];
    apply np_shape_no_rows in H0; auto.
Qed.

(** The shape test the statements of the combiner amount to. *)
Lemma accepted_shapes_spec (sr sg sb : nat * nat) :
  (sr.1 = 0 → sr.2 = 0) → (sg.1 = 0 → sg.2 = 0) → (sb.1 = 0 → sb.2 = 0) →
  match broadcast_shapes sg sb with
  | Some s1 =>
      match broadcast_shapes s1 sr with
      | Some s2 => shape_eqb s2 sr && shape_eqb sb sr
      | None => false
      end
  | None => false
  end = accepted_shapes sr sg sb.
Proof.
  destruct sr as [r1 r2], sg as [g1 g2], sb as [b1 b2]. simpl.
  intros Hr Hg Hb.
  unfold accepted_shapes, broadcast_shapes, broadcast_dim, shape_eqb, dim_fits.
  simpl.
  repeat (match goal with
          | |- context [Nat.eqb ?m ?n] => destruct (Nat.eqb_spec m n)
          end; simpl; try done; try lia).
Qed.

Lemma np_shape_enhanced (a : list (list float)) :
  np_shape (np_sqrt (clipped a)) = np_shape a.
Proof. unfold np_sqrt, clipped. by rewrite !np_shape_fmap. Qed.



End BandCombiner.

(** ** The resampler *)

(** *** The order of floats *)

Lemma SFcompare_Lt_trans (x y z : spec_float) :
  SFcompare x y = Some Lt → SFcompare y z = Some Lt → SFcompare x z = Some Lt.
Proof.
  destruct x as [[]|[]| |[] mx ex], y as [[]|[]| |[] my ey],
    z as [[]|[]| |[] mz ez]; simpl; try done;
    change (Pos.compare_cont Eq ?a ?b) with (Pos.compare a b);
    destruct (Z.compare_spec ex ey), (Z.compare_spec ey ez),
      (Z.compare_spec ex ez); try done; try lia; subst;
    destruct (Pos.compare_spec mx my), (Pos.compare_spec my mz),
      (Pos.compare_spec mx mz); simpl; try done; try lia.
Qed.

Lemma SFcompare_Lt_Gt (x y : spec_float) :
  SFcompare x y = Some Lt → SFcompare y x = Some Gt.
Proof.
  destruct x as [[]|[]| |[] mx ex], y as [[]|[]| |[] my ey]; simpl; try done;
    change (Pos.compare_cont Eq ?a ?b) with (Pos.compare a b);
    destruct (Z.compare_spec ex ey), (Z.compare_spec ey ex); try done; try lia;
    subst;
    destruct (Pos.compare_spec mx my), (Pos.compare_spec my mx);
    simpl; try done; try lia.
Qed.

Lemma SFcompare_refl (x y : spec_float) c :
  SFcompare x y = Some c → SFcompare x x = Some Eq ∧ SFcompare y y = Some Eq.
Proof.
  intros H. split.
  - destruct x as [[]|[]| |[] mx ex]; simpl; try done;
      try (by destruct y as [[]|[]| |[] ? ?]);
      by rewrite Z.compare_refl, Pos.compare_cont_refl.
  - destruct y as [[]|[]| |[] my ey]; simpl; try done;
      try (by destruct x as [[]|[]| |[] ? ?]);
      by rewrite Z.compare_refl, Pos.compare_cont_refl.
Qed.

Lemma ltb_trans (a b c : float) :
  PrimFloat.ltb a b = true → PrimFloat.ltb b c = true → PrimFloat.ltb a c = true.
Proof.
  rewrite !ltb_spec. unfold SFltb.
  destruct (SFcompare (Prim2SF a) (Prim2SF b)) as [[]|] eqn:Hab; try done.
  destruct (SFcompare (Prim2SF b) (Prim2SF c)) as [[]|] eqn:Hbc; try done.
  by rewrite (SFcompare_Lt_trans _ _ _ Hab Hbc).
Qed.

Lemma ltb_asym (a b : float) :
  PrimFloat.ltb a b = true →
  PrimFloat.ltb b a = false ∧ PrimFloat.leb b a = false.
Proof.
  rewrite !ltb_spec, leb_spec. unfold SFltb, SFleb.
  destruct (SFcompare (Prim2SF a) (Prim2SF b)) as [[]|] eqn:Hab; try done.
  by rewrite (SFcompare_Lt_Gt _ _ Hab).
Qed.

Lemma ltb_leb (a b : float) :
  PrimFloat.ltb a b = true → PrimFloat.leb a b = true.
Proof.
  rewrite ltb_spec, leb_spec. unfold SFltb, SFleb.
  by destruct (SFcompare (Prim2SF a) (Prim2SF b)) as [[]|].
Qed.

Lemma ltb_not_nan (a b : float) :
  PrimFloat.ltb a b = true →
  PrimFloat.eqb a a = true ∧ PrimFloat.eqb b b = true.
Proof.
  rewrite ltb_spec, !FloatAxioms.eqb_spec. unfold SFltb, SFeqb.
  destruct (SFcompare (Prim2SF a) (Prim2SF b)) as [c|] eqn:Hab; [|done].
  intros _. by destruct (SFcompare_refl _ _ _ Hab) as [-> ->].
Qed.

Lemma ltb_irrefl (a : float) : PrimFloat.ltb a a = false.
Proof.
  destruct (PrimFloat.ltb a a) eqn:H; [|done].
  destruct (ltb_asym _ _ H) as [H' _]. by rewrite H in H'.
Qed.

Lemma np_lt_ltb (a b : float) :
  PrimFloat.ltb a b = true → np_lt a b = true ∧ np_lt b a = false.
Proof.
  intros H. unfold np_lt.
  destruct (ltb_not_nan _ _ H) as [-> ->], (ltb_asym _ _ H) as [-> _].
  by rewrite H.
Qed.

(** *** Axes in ascending and in descending order *)

Lemma strictly_increasing_cons (a : float) (axis : list float) :
  strictly_increasing (a :: axis) = true →
  strictly_increasing axis = true ∧
  ∀ q, q ∈ axis → PrimFloat.ltb a q = true.
Proof.
  revert a. induction axis as [|b axis IH]; intros a H.
  - split; [done|]. intros q Hq. by apply elem_of_nil in Hq.
  - change (PrimFloat.ltb a b && strictly_increasing (b :: axis) = true) in H.
    apply andb_true_iff in H as [Hab Hinc].
    split; [done|]. intros q Hq.
    apply elem_of_cons in Hq as [->|Hq]; [done|].
    apply (ltb_trans _ b); [done|]. by apply (IH b).
Qed.

Lemma strictly_increasing_snoc (axis : list float) (a : float) :
  strictly_increasing (axis ++ [a]) = true →
  strictly_increasing axis = true ∧
  ∀ q, q ∈ axis → PrimFloat.ltb q a = true.
Proof.
  induction axis as [|b axis IH]; intros H.
  - split; [done|]. intros q Hq. by apply elem_of_nil in Hq.
  - change ((b :: axis) ++ [a]) with (b :: (axis ++ [a])) in H.
    pose proof (strictly_increasing_cons _ _ H) as [Hinc Hb].
    destruct (IH Hinc) as [Haxis Ha]. split.
    + destruct axis as [|c axis]; [done|].
      change (PrimFloat.ltb b c && strictly_increasing (c :: axis) = true).
      rewrite Haxis, andb_true_r. apply Hb.
      apply elem_of_cons. by left.
    + intros q Hq. apply elem_of_cons in Hq as [->|Hq]; [|by apply Ha].
      apply Hb, elem_of_app. right. apply elem_of_cons. by left.
Qed.

Lemma strictly_increasing_nondecreasing (axis : list float) :
  strictly_increasing axis = true → nondecreasing axis = true.
Proof.
  induction axis as [|a [|b axis] IH]; [done..|].
  intros H.
  change (PrimFloat.ltb a b && strictly_increasing (b :: axis) = true) in H.
  apply andb_true_iff in H as [Hab Hinc].
  change (PrimFloat.leb a b && nondecreasing (b :: axis) = true).
  by rewrite (ltb_leb _ _ Hab), IH.
Qed.

Lemma strictly_decreasing_not_nondecreasing (axis : list float) :
  1 < length axis →
  strictly_increasing (reverse axis) = true → nondecreasing axis = false.
Proof.
  destruct axis as [|a [|b axis]]; simpl; [lia..|]. intros _ H.
  rewrite reverse_cons in H.
  apply strictly_increasing_snoc in H as [_ H].
  assert (Hba : PrimFloat.ltb b a = true).
  { apply H. rewrite reverse_cons. apply elem_of_app. right.
    apply elem_of_cons. by left. }
  change (PrimFloat.leb a b && nondecreasing (b :: axis) = false).
  by destruct (ltb_asym _ _ Hba) as [_ ->].
Qed.

(** *** Sorting *)

Lemma insert_by_front {A : Type} (key : A → float) (p : A) (l : list A) :
  (∀ q, q ∈ l → PrimFloat.ltb (key p) (key q) = true) →
  insert_by key p l = p :: l.
Proof.
  destruct l as [|q l]; [done|]. intros H. simpl.
  destruct (np_lt_ltb (key p) (key q)) as [_ ->]; [|done].
  apply H, elem_of_cons. by left.
Qed.

Lemma insert_by_back {A : Type} (key : A → float) (p : A) (l : list A) :
  (∀ q, q ∈ l → PrimFloat.ltb (key q) (key p) = true) →
  insert_by key p l = l ++ [p].
Proof.
  induction l as [|q l IH]; [done|]. intros H. simpl.
  destruct (np_lt_ltb (key q) (key p)) as [-> _].
  { apply H, elem_of_cons. by left. }
  rewrite IH; [done|]. intros q' Hq'. apply H, elem_of_cons. by right.
Qed.

Lemma sort_by_increasing {A : Type} (key : A → float) (l : list A) :
  strictly_increasing (key <$> l) = true → sort_by key l = l.
Proof.
  induction l as [|p l IH]; [done|]. intros H.
  rewrite fmap_cons in H.
  apply strictly_increasing_cons in H as [Hinc Hp].
  change (insert_by key p (sort_by key l) = p :: l).
  rewrite IH by done. apply insert_by_front.
  intros q Hq. apply Hp, list_elem_of_fmap. eauto.
Qed.

Lemma sort_by_decreasing {A : Type} (key : A → float) (l : list A) :
  strictly_increasing (reverse (key <$> l)) = true →
  sort_by key l = reverse l.
Proof.
  induction l as [|p l IH]; [done|]. intros H.
  rewrite fmap_cons, reverse_cons in H.
  apply strictly_increasing_snoc in H as [Hinc Hp].
  change (insert_by key p (sort_by key l) = reverse (p :: l)).
  rewrite IH, reverse_cons by done. apply insert_by_back.
  intros q Hq. apply Hp. rewrite elem_of_reverse. apply list_elem_of_fmap.
  exists q. split; [done|]. by apply elem_of_reverse.
Qed.

Lemma length_insert_by {A : Type} (key : A → float) (p : A) (l : list A) :
  length (insert_by key p l) = S (length l).
Proof.
  induction l as [|q l IH]; [done|]. simpl.
  destruct (np_lt _ _); simpl; by rewrite ?IH.
Qed.

Lemma length_sort_by {A : Type} (key : A → float) (l : list A) :
  length (sort_by key l) = length l.
Proof.
  induction l as [|p l IH]; [done|].
  change (length (insert_by key p (sort_by key l)) = S (length l)).
  by rewrite length_insert_by, IH.
Qed.

Lemma np_sort_increasing (axis : list float) :
  strictly_increasing axis = true → np_sort axis = axis.
Proof.
  intros H. apply sort_by_increasing. by rewrite list_fmap_id.
Qed.

Lemma np_sort_decreasing (axis : list float) :
  strictly_increasing (reverse axis) = true → np_sort axis = reverse axis.
Proof.
  intros H. apply sort_by_decreasing. by rewrite list_fmap_id.
Qed.

Lemma np_argsort_decreasing (axis : list float) :
  strictly_increasing (reverse axis) = true →
  np_argsort axis = reverse (seq 0 (length axis)).
Proof.
  intros H. unfold np_argsort.
  rewrite sort_by_decreasing.
  - rewrite fmap_reverse, snd_zip; [done|]. by rewrite length_seq.
  - rewrite fst_zip; [done|]. by rewrite length_seq.
Qed.

Lemma np_take_reverse_seq {A : Type} (l : list A) :
  np_take (reverse (seq 0 (length l))) l = reverse l.
Proof.
  unfold np_take. induction l as [|a l IH] using rev_ind; [done|].
  rewrite length_app. cbn [length]. rewrite Nat.add_1_r, seq_S.
  rewrite !reverse_app. cbn [reverse rev_append app omap list_omap plus].
  rewrite lookup_app_r, Nat.sub_diag by lia. simpl. f_equal.
  rewrite <- IH. apply list_omap_ext, Forall2_same_length_lookup_2; [done|].
  intros i k k' Hk Hk'. rewrite Hk in Hk'. injection Hk' as <-.
  apply list_elem_of_lookup_2, elem_of_reverse, elem_of_seq in Hk.
  apply lookup_app_l. lia.
Qed.

(** *** The envelope of an ascending axis *)

Lemma foldl_fmin_least (a : float) (axis : list float) :
  (∀ q, q ∈ axis → PrimFloat.ltb a q = true) → foldl fmin a axis = a.
Proof.
  induction axis as [|b axis IH]; [done|]. intros H. simpl.
  assert (Hab : PrimFloat.ltb a b = true) by (apply H, elem_of_cons; by left).
  unfold fmin at 2. rewrite (ltb_leb _ _ Hab). simpl.
  apply IH. intros q Hq. apply H, elem_of_cons. by right.
Qed.

Lemma foldl_fmax_last (a : float) (axis : list float) :
  strictly_increasing (a :: axis) = true →
  foldl fmax a axis = default a (last axis).
Proof.
  revert a. induction axis as [|b axis IH]; [done|]. intros a H.
  change (PrimFloat.ltb a b && strictly_increasing (b :: axis) = true) in H.
  apply andb_true_iff in H as [Hab Hinc].
  cbn [foldl]. unfold fmax at 2.
  destruct (ltb_asym _ _ Hab) as [_ ->], (ltb_not_nan _ _ Hab) as [-> _].
  simpl orb. cbv iota. rewrite (IH b Hinc), last_cons.
  by destruct (last axis).
Qed.

Lemma in_bounds_of_increasing (axis : list float) (v : float) :
  strictly_increasing axis = true → v ∈ axis → out_of_bounds axis v = false.
Proof.
  intros Hinc Hv. unfold out_of_bounds.
  destruct axis as [|a axis]; [by apply elem_of_nil in Hv|].
  apply orb_false_iff. split.
  - unfold np_amin.
    pose proof (strictly_increasing_cons _ _ Hinc) as [_ Ha].
    rewrite (foldl_fmin_least _ _ Ha).
    apply elem_of_cons in Hv as [->|Hv]; [apply ltb_irrefl|].
    by destruct (ltb_asym _ _ (Ha _ Hv)) as [-> _].
  - unfold np_amax. rewrite (foldl_fmax_last _ _ Hinc).
    destruct (exists_last (l:=a :: axis)) as (front & hi & Hsplit); [done|].
    assert (Hlast : default a (last axis) = hi).
    { pose proof (last_snoc hi front) as Hl. rewrite <- Hsplit, last_cons in Hl.
      by destruct (last axis); injection Hl as ->. }
    rewrite Hlast. rewrite Hsplit in Hinc, Hv.
    apply strictly_increasing_snoc in Hinc as [_ Hhi].
    apply elem_of_app in Hv as [Hv|Hv].
    + by destruct (ltb_asym _ _ (Hhi _ Hv)) as [-> _].
    + apply list_elem_of_singleton in Hv as ->. apply ltb_irrefl.
Qed.

(** *** The source in ascending order *)

Lemma has_shape_length h w (z : list (list float)) :
  has_shape h w z = true → length z = h.
Proof. intros H. by apply has_shape_rect in H as [? _]. Qed.

Lemma rect_reverse {A : Type} h w (z : list (list A)) :
  rect h w z → rect h w (reverse z).
Proof.
  intros [Hlen Hrows]. split; [by rewrite length_reverse|].
  intros i row Hi.
  apply list_elem_of_lookup_2 in Hi. rewrite elem_of_reverse in Hi.
  apply list_elem_of_lookup in Hi as [k Hk].
  exact (Hrows k row Hk).
Qed.

Lemma rect_mirror_columns h w (z : list (list float)) :
  rect h w z → rect h w (mirror_columns z).
Proof.
  intros [Hlen Hrows]. unfold mirror_columns.
  split; [by rewrite length_fmap|].
  intros i row. rewrite list_lookup_fmap.
  destruct (z !! i) as [r|] eqn:Hr; [|done].
  intros [= <-]. rewrite length_reverse. eauto.
Qed.

Lemma take_columns_reversed w h (z : list (list float)) :
  rect h w z →
  (fun row : list float => np_take (reverse (seq 0 w)) row) <$> z
  = mirror_columns z.
Proof.
  intros [_ Hrows]. unfold mirror_columns.
  apply list_eq. intros i. rewrite !list_lookup_fmap.
  destruct (z !! i) as [row|] eqn:Hrow; [|done]. simpl. f_equal.
  rewrite <- (Hrows i row Hrow). apply np_take_reverse_seq.
Qed.

(** The source the interpolant works on, for strictly monotonic axes:
    a decreasing [x] axis is reversed together with the columns of the
    grid, a decreasing [y] axis together with its rows. *)
Lemma sort_source_monotonic (x y : list float) (z : list (list float)) :
  1 < length x → 1 < length y →
  rect (length y) (length x) z →
  strictly_monotonic x = true → strictly_monotonic y = true →
  sort_source x y z
  = (if strictly_increasing x then x else reverse x,
     if strictly_increasing y then y else reverse y,
     let z := if strictly_increasing x then z else mirror_columns z in
     if strictly_increasing y then z else reverse z).
Proof.
  intros Hx Hy Hz Mx My. unfold sort_source.
  unfold strictly_monotonic in Mx, My.
  apply andb_true_iff in Mx as [_ Mx]. apply andb_true_iff in My as [_ My].
  assert (Hx' : (if nondecreasing x then (x, z)
                 else (np_take (np_argsort x) x,
                       (fun row : list float => np_take (np_argsort x) row)
                         <$> z))
                = (if strictly_increasing x then x else reverse x,
                   if strictly_increasing x then z else mirror_columns z)).
  { destruct (strictly_increasing x) eqn:Ix.
    - by rewrite strictly_increasing_nondecreasing.
    - simpl in Mx.
      rewrite strictly_decreasing_not_nondecreasing by done. cbv zeta.
      rewrite np_argsort_decreasing by done.
      by rewrite np_take_reverse_seq, (take_columns_reversed _ _ _ Hz). }
  rewrite Hx'. clear Hx'.
  set (z1 := if strictly_increasing x then z else mirror_columns z).
  assert (Hz1 : length z1 = length y).
  { unfold z1. destruct (strictly_increasing x).
    - apply Hz.
    - unfold mirror_columns. rewrite length_fmap. apply Hz. }
  destruct (strictly_increasing y) eqn:Iy.
  - by rewrite strictly_increasing_nondecreasing.
  - simpl in My.
    rewrite strictly_decreasing_not_nondecreasing by done. cbv zeta.
    rewrite np_argsort_decreasing by done.
    rewrite np_take_reverse_seq. rewrite <- Hz1.
    by rewrite np_take_reverse_seq.
Qed.

(** *** Evaluating the interpolant on sorted axes *)

Lemma lookup2_evaluate (f : float → float → float) (xs ys : list float) j i :
  lookup2 ((fun yv : float => (fun xv : float => f xv yv) <$> xs) <$> ys) j i
  = yv ← ys !! j; xv ← xs !! i; Some (f xv yv).
Proof.
  unfold lookup2. rewrite list_lookup_fmap.
  destruct (ys !! j) as [yv|]; simpl; [|done].
  rewrite list_lookup_fmap. by destruct (xs !! i).
Qed.

Lemma rect_evaluate (f : float → float → float) (xs ys : list float) :
  rect (length ys) (length xs)
    ((fun yv : float => (fun xv : float => f xv yv) <$> xs) <$> ys).
Proof.
  split; [by rewrite length_fmap|].
  intros j row. rewrite list_lookup_fmap.
  destruct (ys !! j) as [yv|]; simpl; [|done].
  intros [= <-]. by rewrite length_fmap.
Qed.

(** On its own ascending axes a surface that takes the values of the
    grid at the nodes gives the grid back: no node lies outside the
    envelope. *)
Lemma evaluate_at_nodes
    (spline : list float → list float → list (list float) → float → float → float)
    (xs ys : list float) (grid : list (list float)) (fill : float) :
  strictly_increasing xs = true → strictly_increasing ys = true →
  rect (length ys) (length xs) grid →
  (∀ j i xv yv v,
     xs !! i = Some xv → ys !! j = Some yv → lookup2 grid j i = Some v →
     spline xs ys grid xv yv = v) →
  (fun yv : float =>
     (fun xv : float =>
        if out_of_bounds xs xv || out_of_bounds ys yv then fill
        else spline xs ys grid xv yv) <$> xs) <$> ys
  = grid.
Proof.
  intros Ix Iy Hgrid Hnodes. apply ext2.
  { rewrite length_fmap. symmetry. apply Hgrid. }
  intros j i.
  rewrite (lookup2_evaluate
             (fun xv yv => if out_of_bounds xs xv || out_of_bounds ys yv
                           then fill else spline xs ys grid xv yv)).
  destruct (ys !! j) as [yv|] eqn:Hy; simpl.
  - destruct (xs !! i) as [xv|] eqn:Hx; simpl.
    + destruct (rect_lookup2 _ _ grid j i Hgrid) as [v Hv].
      { by apply lookup_lt_Some in Hy. }
      { by apply lookup_lt_Some in Hx. }
      rewrite Hv. f_equal.
      rewrite (in_bounds_of_increasing xs xv Ix),
        (in_bounds_of_increasing ys yv Iy);
        [|by eapply list_elem_of_lookup_2..].
      simpl. by apply (Hnodes j i).
    + destruct (lookup2 grid j i) as [v|] eqn:Hv; [|done].
      apply (lookup2_rect_lt _ _ _ _ _ _ Hgrid) in Hv as [_ Hi].
      apply lookup_ge_None in Hx. lia.
  - destruct (lookup2 grid j i) as [v|] eqn:Hv; [|done].
    apply (lookup2_rect_lt _ _ _ _ _ _ Hgrid) in Hv as [Hj _].
    apply lookup_ge_None in Hy. lia.
Qed.

Lemma strictly_monotonic_sorted (axis : list float) :
  strictly_monotonic axis = true →
  strictly_increasing (if strictly_increasing axis then axis else reverse axis)
  = true.
Proof.
  unfold strictly_monotonic. intros H.
  apply andb_true_iff in H as [_ H].
  by destruct (strictly_increasing axis) eqn:Hinc.
Qed.

Lemma np_sort_monotonic (axis : list float) :
  strictly_monotonic axis = true →
  np_sort axis = if strictly_increasing axis then axis else reverse axis.
Proof.
  unfold strictly_monotonic. intros H.
  apply andb_true_iff in H as [_ H].
  destruct (strictly_increasing axis) eqn:Hinc.
  - by apply np_sort_increasing.
  - by apply np_sort_decreasing.
Qed.

(** An axis of two points or more is not increasing and decreasing at
    once. *)
Lemma strictly_decreasing_not_increasing (axis : list float) :
  1 < length axis →
  strictly_increasing (reverse axis) = true → strictly_increasing axis = false.
Proof.
  intros Hlen Hdec.
  pose proof (strictly_decreasing_not_nondecreasing _ Hlen Hdec) as Hnon.
  destruct (strictly_increasing axis) eqn:Hinc; [|done].
  by rewrite (strictly_increasing_nondecreasing _ Hinc) in Hnon.
Qed.

Lemma length_monotonic_sorted {A : Type} (b : bool) (l : list A) :
  length (if b then l else reverse l) = length l.
Proof. destruct b; [done|apply length_reverse]. Qed.

(** *** The resampler over the interpolant *)

Lemma lookup2_reverse {A : Type} (a : list (list A)) i j :
  i < length a →
  lookup2 (reverse a) i j = lookup2 a (length a - S i) j.
Proof.
  intros Hi. unfold lookup2. by rewrite reverse_lookup.
Qed.

Section Resampler.

Variable spline :
  list float → list float → list (list float) → float → float → float.

(** The grid the interpolant yields on the target axes: the rows in
    ascending order of the target [y], the columns in ascending order of
    the target [x]. *)
Lemma interp2d_with_run (src : Dataset) (fill : float) xs ys grid :
  sort_source (ds_x src) (ds_y src) (ds_grid src) = (xs, ys, grid) →
  has_shape (length (ds_y src)) (length (ds_x src)) (ds_grid src) = true →
  1 < length (ds_x src) → 1 < length (ds_y src) →
  ∃ f,
    interp2d_with spline (ds_x src) (ds_y src) src fill = Ok f ∧
    ∀ x_new y_new,
      0 < length x_new → 0 < length y_new →
      f x_new y_new
      = Ok ((fun yv : float =>
               (fun xv : float =>
                  if out_of_bounds xs xv || out_of_bounds ys yv then fill
                  else spline xs ys grid xv yv) <$> np_sort x_new)
              <$> np_sort y_new).
Proof.
  intros Hsort Hshape Hx Hy. unfold interp2d_with.
  rewrite Hshape, Hsort. simpl negb. cbv iota.
  destruct (Nat.ltb_spec (length (ds_x src)) 2) as [?|_]; [lia|].
  destruct (Nat.ltb_spec (length (ds_y src)) 2) as [?|_]; [lia|].
  simpl orb. cbv iota. eexists. split; [done|].
  intros x_new y_new Hxn Hyn. cbv beta.
  destruct (Nat.eqb_spec (length x_new) 0) as [?|_]; [lia|].
  by destruct (Nat.eqb_spec (length y_new) 0) as [?|_]; [lia|].
Qed.

Lemma interpolate_red_channel_run (src tgt : Dataset) xs ys grid :
  sort_source (ds_x src) (ds_y src) (ds_grid src) = (xs, ys, grid) →
  has_shape (length (ds_y src)) (length (ds_x src)) (ds_grid src) = true →
  1 < length (ds_x src) → 1 < length (ds_y src) →
  0 < length (ds_x tgt) → 0 < length (ds_y tgt) →
  interpolate_red_channel (interp2d_with spline) src tgt
  = Ok (ds_x tgt, ds_y tgt,
        reverse ((fun yv : float =>
                    (fun xv : float =>
                       if out_of_bounds xs xv || out_of_bounds ys yv
                       then 0%float
                       else spline xs ys grid xv yv) <$> np_sort (ds_x tgt))
                   <$> np_sort (ds_y tgt))).
Proof.
  intros Hsort Hshape Hx Hy Hxt Hyt.
  destruct (interp2d_with_run src 0 xs ys grid) as (f & Hf & Hcall);
    try done.
  unfold interpolate_red_channel, res_bind, np_flip_rows.
  by rewrite Hf, (Hcall _ _ Hxt Hyt).
Qed.

(** The interpolant refuses a source whose grid does not fit its axes
    or whose axes have fewer than two points, and empty target axes. *)
Lemma interpolate_red_channel_refuses (src tgt : Dataset) :
  has_shape (length (ds_y src)) (length (ds_x src)) (ds_grid src) = false
  ∨ length (ds_x src) < 2 ∨ length (ds_y src) < 2
  ∨ length (ds_x tgt) = 0 ∨ length (ds_y tgt) = 0 →
  ∃ e, interpolate_red_channel (interp2d_with spline) src tgt = Raise e.
Proof.
  intros Hbad. unfold interpolate_red_channel, res_bind, interp2d_with.
  destruct (has_shape _ _ _) eqn:Hshape; simpl negb; cbv iota; [|eauto].
  destruct (Nat.ltb_spec (length (ds_x src)) 2) as [?|Hx]; simpl orb;
    cbv iota; [eauto|].
  destruct (Nat.ltb_spec (length (ds_y src)) 2) as [?|Hy]; cbv iota;
    [eauto|].
  destruct (sort_source _ _ _) as [[xs ys] grid].
  destruct (Nat.eqb_spec (length (ds_x tgt)) 0) as [?|Hxt]; simpl orb;
    cbv iota; [eauto|].
  destruct (Nat.eqb_spec (length (ds_y tgt)) 0) as [?|Hyt]; cbv iota;
    [eauto|].
  destruct Hbad as [?|[?|[?|[?|?]]]]; try done; lia.
Qed.

(** C3. Resampling a channel onto its own axes, for strictly monotonic
    axes of two points or more and a surface that takes the values of
    the grid at the nodes.  The interpolant evaluates in ascending order
    of the target axes and [interpolate_red_channel] then reverses the
    rows, whatever the direction of the [y] axis is.  So the round trip
    is the identity for an increasing [x] and a decreasing [y] axis, the
    orientation of the GOES-16 grids; for an increasing [y] axis the
    rows of the grid come back in reverse order (and for a decreasing
    [x] axis the columns do). *)
Theorem round_trip_depends_on_axis_order (ch : Dataset) :
  1 < length (ds_x ch) → 1 < length (ds_y ch) →
  has_shape (length (ds_y ch)) (length (ds_x ch)) (ds_grid ch) = true →
  strictly_monotonic (ds_x ch) = true →
  strictly_monotonic (ds_y ch) = true →
  exact_at_nodes spline (ds_x ch) (ds_y ch) (ds_grid ch) →
  interpolate_red_channel (interp2d_with spline) ch ch
  = Ok (ds_x ch, ds_y ch, own_axes_grid (ds_x ch) (ds_y ch) (ds_grid ch)) ∧
  (strictly_increasing (ds_x ch) = true →
   strictly_increasing (reverse (ds_y ch)) = true →
   interpolate_red_channel (interp2d_with spline) ch ch
   = Ok (ds_x ch, ds_y ch, ds_grid ch)) ∧
  (strictly_increasing (ds_x ch) = true →
   strictly_increasing (ds_y ch) = true →
   interpolate_red_channel (interp2d_with spline) ch ch
   = Ok (ds_x ch, ds_y ch, reverse (ds_grid ch))).
Proof.
  intros Hx Hy Hshape Mx My Hnodes.
  pose proof (proj1 (has_shape_rect _ _ _) Hshape) as Hrect.
  pose proof (sort_source_monotonic _ _ _ Hx Hy Hrect Mx My) as Hsort.
  cbv zeta in Hsort.
  assert (Hrun : interpolate_red_channel (interp2d_with spline) ch ch
                 = Ok (ds_x ch, ds_y ch,
                       own_axes_grid (ds_x ch) (ds_y ch) (ds_grid ch))).
  { rewrite (interpolate_red_channel_run ch ch _ _ _ Hsort) by (done || lia).
    do 2 f_equal.
    rewrite (np_sort_monotonic _ Mx), (np_sort_monotonic _ My).
    rewrite evaluate_at_nodes.
    - unfold own_axes_grid.
      destruct (strictly_increasing (ds_y ch)); [done|].
      apply reverse_involutive.
    - by apply strictly_monotonic_sorted.
    - by apply strictly_monotonic_sorted.
    - rewrite !length_monotonic_sorted.
      assert (Hcols : rect (length (ds_y ch)) (length (ds_x ch))
                        (if strictly_increasing (ds_x ch) then ds_grid ch
                         else mirror_columns (ds_grid ch))).
      { destruct (strictly_increasing (ds_x ch)); [done|].
        by apply rect_mirror_columns. }
      destruct (strictly_increasing (ds_y ch)); [done|].
      by apply rect_reverse.
    - unfold exact_at_nodes in Hnodes. rewrite Hsort in Hnodes.
      exact Hnodes. }
  split; [exact Hrun|]. split.
  - intros Ix Dy. rewrite Hrun. unfold own_axes_grid.
    by rewrite Ix, (strictly_decreasing_not_increasing _ Hy Dy).
  - intros Ix Iy. rewrite Hrun. unfold own_axes_grid. by rewrite Ix, Iy.
Qed.

(** C6. The entries of the resampled grid, for a source whose grid fits
    its axes of two points or more and target axes with at least one
    column and two rows.  The grid has the shape
    [(len(y_t), len(x_t))]; column [i] belongs to the [i]-th smallest
    target [x] and row [j] to the [j]-th greatest target [y], because
    the interpolant sorts the target axes and the rows are reversed
    afterwards; an entry whose location lies outside the envelope of
    the source axes holds the fill value 0, every other entry the value
    of the surface there.  For an increasing target [x] and a
    decreasing target [y], entry [(j, i)] is therefore the value at
    [(x_t[i], y_t[j])]; for an increasing target [y] that value is
    found in row [len(y_t) - 1 - j] instead.  A source that does not
    fit and empty target axes are refused. *)
Theorem resampled_entries_follow_sorted_axes (src tgt : Dataset) xs ys grid :
  sort_source (ds_x src) (ds_y src) (ds_grid src) = (xs, ys, grid) →
  (has_shape (length (ds_y src)) (length (ds_x src)) (ds_grid src) = true →
   1 < length (ds_x src) → 1 < length (ds_y src) →
   0 < length (ds_x tgt) → 1 < length (ds_y tgt) →
   ∃ z,
     interpolate_red_channel (interp2d_with spline) src tgt
     = Ok (ds_x tgt, ds_y tgt, z) ∧
     rect (length (ds_y tgt)) (length (ds_x tgt)) z ∧
     (∀ j i x y,
        np_sort (ds_x tgt) !! i = Some x →
        reverse (np_sort (ds_y tgt)) !! j = Some y →
        lookup2 z j i
        = Some (if out_of_bounds xs x || out_of_bounds ys y then 0%float
                else spline xs ys grid x y)) ∧
     (strictly_increasing (ds_x tgt) = true →
      strictly_increasing (reverse (ds_y tgt)) = true →
      ∀ j i x y,
        ds_x tgt !! i = Some x → ds_y tgt !! j = Some y →
        lookup2 z j i
        = Some (if out_of_bounds xs x || out_of_bounds ys y then 0%float
                else spline xs ys grid x y)) ∧
     (strictly_increasing (ds_x tgt) = true →
      strictly_increasing (ds_y tgt) = true →
      ∀ j i x y,
        ds_x tgt !! i = Some x → ds_y tgt !! j = Some y →
        lookup2 z (length (ds_y tgt) - S j) i
        = Some (if out_of_bounds xs x || out_of_bounds ys y then 0%float
                else spline xs ys grid x y))) ∧
  (has_shape (length (ds_y src)) (length (ds_x src)) (ds_grid src) = false
   ∨ length (ds_x src) < 2 ∨ length (ds_y src) < 2
   ∨ length (ds_x tgt) = 0 ∨ length (ds_y tgt) = 0 →
   ∃ e, interpolate_red_channel (interp2d_with spline) src tgt = Raise e).
Proof.
  intros Hsort. split; [|apply interpolate_red_channel_refuses].
  intros Hshape Hx Hy Hxt Hyt.
  set (value := fun xv yv : float =>
         if out_of_bounds xs xv || out_of_bounds ys yv then 0%float
         else spline xs ys grid xv yv).
  set (z0 := (fun yv : float =>
                (fun xv : float => value xv yv) <$> np_sort (ds_x tgt))
               <$> np_sort (ds_y tgt)).
  assert (Hz0 : rect (length (ds_y tgt)) (length (ds_x tgt)) z0).
  { pose proof (rect_evaluate value (np_sort (ds_x tgt)) (np_sort (ds_y tgt)))
      as Hr.
    unfold np_sort in Hr at 1 2. by rewrite !length_sort_by in Hr. }
  assert (Hentry : ∀ j i x y,
            np_sort (ds_x tgt) !! i = Some x →
            reverse (np_sort (ds_y tgt)) !! j = Some y →
            lookup2 (reverse z0) j i = Some (value x y)).
  { intros j i x y Hi Hj.
    assert (Hlen : j < length (np_sort (ds_y tgt))).
    { apply lookup_lt_Some in Hj. by rewrite length_reverse in Hj. }
    rewrite lookup2_reverse by (unfold z0; by rewrite length_fmap).
    rewrite reverse_lookup in Hj by done.
    unfold z0. rewrite length_fmap, (lookup2_evaluate value), Hj. simpl.
    by rewrite Hi. }
  exists (reverse z0). split; [|split; [|split; [|split]]].
  - apply (interpolate_red_channel_run src tgt xs ys grid); try done; lia.
  - by apply rect_reverse.
  - exact Hentry.
  - intros Ix Dy j i x y Hi Hj. apply Hentry.
    + by rewrite np_sort_increasing.
    + by rewrite np_sort_decreasing, reverse_involutive.
  - intros Ix Iy j i x y Hi Hj. apply Hentry.
    + by rewrite np_sort_increasing.
    + rewrite np_sort_increasing by done.
      pose proof (lookup_lt_Some _ _ _ Hj) as Hlt.
      rewrite reverse_lookup by lia.
      by replace (length (ds_y tgt) - S (length (ds_y tgt) - S j)) with j
        by lia.
Qed.

End Resampler.

(** ** Worked instances *)

(** *** The model on small inputs *)

Example np_where_example :
  np_where (np_less_equal [[0; 5]; [1e-5; 2]] 0.0001)%float = [(0, 0); (1, 0)].
Proof. reflexivity. Qed.

Example np_setitem_example :
  np_setitem [[0; 5]; [1e-5; 2]]%float [(0, 0); (1, 0)] 1
  = [[1; 5]; [1; 2]]%float.
Proof. reflexivity. Qed.

Example np_add_broadcast_example :
  np_add [[1; 2]; [3; 4]]%float [[10]]%float = Ok [[11; 12]; [13; 14]]%float.
Proof. reflexivity. Qed.

Example np_add_mismatch_example :
  np_add (const_band 4 4 1) (const_band 3 3 1)
  = Raise (ValueError "operands could not be broadcast together").
Proof. reflexivity. Qed.

Example np_dstack_example :
  np_dstack [[[1; 2]]; [[3; 4]]; [[5; 6]]]%float
  = Ok [[[1; 3; 5]; [2; 4; 6]]]%float.
Proof. reflexivity. Qed.

Example py_getitem_negative_example :
  py_getitem [10; 20; 30]%Z (-2) = Ok 20%Z.
Proof. reflexivity. Qed.

Example format_02d_example : format_02d 2 = "02".
Proof. reflexivity. Qed.

Example np_sort_example :
  np_sort [3; 1; 2]%float = [1; 2; 3]%float ∧
  np_argsort [3; 1; 2]%float = [1; 2; 0].
Proof. split; reflexivity. Qed.

Example sort_source_example :
  sort_source [1; 0]%float [1; 0]%float [[4; 3]; [2; 1]]%float
  = ([0; 1], [0; 1], [[1; 2]; [3; 4]])%float.
Proof. reflexivity. Qed.

Example bilinear_midpoint_example :
  bilinear_at (ds_x sample_channel) (ds_y sample_channel)
    (ds_grid sample_channel) 0.5 0.5 = 2.5%float.
Proof. reflexivity. Qed.

(** The interpolant sorts the target axes: asked for the rows [y = 1]
    and [y = 0] in this order, it yields the row of [y = 0] first; and
    a column outside the envelope of the source holds the fill value. *)
Example interp2d_sorts_targets_example :
  (f <~ bilinear_interp2d [0; 1]%float [0; 1]%float sample_channel 0 ;;
   f [7; 0.5]%float [1; 0]%float)
  = Ok [[1.5; 0]; [3.5; 0]]%float.
Proof. reflexivity. Qed.

Example interp2d_short_axis_example :
  bilinear_interp2d [0]%float [0; 1]%float
    {| ds_x := [0]%float; ds_y := [0; 1]%float; ds_grid := [[1]; [2]]%float;
       start_date_time := "2018311180000" |} 0
  = Raise (Exn "error" "(mx>kx) failed for hidden mx").
Proof. reflexivity. Qed.

(** In binary64 the order of the three terms of the synthesis matters:
    summed as the statement of the notebook has them, the scenario value
    is 2.8000000000000003; with red before blue it is 2.7999999999999998. *)
Example summation_order_example :
  (PrimFloat.sqrt 1 * 0.1 + PrimFloat.sqrt 16 * 0.45 + PrimFloat.sqrt 4 * 0.45
   = 2.8000000000000003)%float ∧
  (PrimFloat.sqrt 1 * 0.1 + PrimFloat.sqrt 4 * 0.45 + PrimFloat.sqrt 16 * 0.45
   = 2.7999999999999998)%float.
Proof. split; reflexivity. Qed.

(** *** Instances of the properties *)

(** Two floats that the comparison tells apart are different. *)
Lemma float_neq (x y : float) :
  PrimFloat.eqb x x = true → PrimFloat.eqb x y = false → x ≠ y.
Proof. intros Hx Hxy ->. by rewrite Hx in Hxy. Qed.

(** Three 1x2 bands with a zero, a tiny value, a value at the threshold
    and a NaN. *)
Lemma clipping_replaces_degenerate_samples_witness :
  ∃ locals' r' g' b',
    clip_maxes (demo_locals [[0; 0.5]] [[1e-5; nan]] [[0.0001; 3]])%float
    = Ok (tt, locals') ∧
    locals' !! "red_data" = Some (VArray r') ∧
    locals' !! "green_data" = Some (VArray g') ∧
    locals' !! "blue_data" = Some (VArray b') ∧
    lookup2 r' 0 0 = Some 1%float ∧ lookup2 r' 0 1 = Some 0.5%float ∧
    lookup2 g' 0 0 = Some 1%float ∧ lookup2 g' 0 1 = Some nan ∧
    lookup2 b' 0 0 = Some 1%float ∧ lookup2 b' 0 1 = Some 3%float.
Proof.
  destruct (clipping_replaces_degenerate_samples
              (demo_locals [[0; 0.5]] [[1e-5; nan]] [[0.0001; 3]])%float
              [[0; 0.5]]%float [[1e-5; nan]]%float [[0.0001; 3]]%float
              eq_refl eq_refl eq_refl)
    as (locals' & r' & g' & b' & Hrun & Hr & Hg & Hb & _ & Hpt).
  exists locals', r', g', b'. do 4 (split; [assumption|]).
  destruct (Hpt 0 0) as (Hr0 & Hg0 & Hb0).
  destruct (Hpt 0 1) as (Hr1 & Hg1 & Hb1).
  repeat split; assumption.
Defined.

(** Enhanced bands red = 2, green = 0, blue = 4: the synthesis statement
    alone gives 2.7. *)
Lemma synthesized_green_is_weighted_sum_witness :
  ∃ g',
    fake_green (demo_locals [[2]] [[0]] [[4]])%float
    = Ok (tt, <["green_data" := VArray g']> (demo_locals [[2]] [[0]] [[4]])%float) ∧
    lookup2 g' 0 0 = Some 2.7%float.
Proof.
  destruct (proj1 (@synthesized_green_is_weighted_sum unit unit unit)
              (demo_locals [[2]] [[0]] [[4]])%float
              [[2]]%float [[0]]%float [[4]]%float 1 1
              eq_refl eq_refl eq_refl eq_refl eq_refl eq_refl)
    as (g' & Hrun & _ & Hpt).
  exists g'. split; [assumption|].
  exact (Hpt 0 0 2%float 0%float 4%float eq_refl eq_refl eq_refl).
Defined.

(** C1: in the end-to-end scenario of section 8 (raw green 0, clipping at
    0.0001) the synthesized green is 2.8000000000000003 at every pixel,
    not 2.7. *)
Lemma synthesized_green_scenario_counterexample :
  var_after band_combiner (@scenario_locals unit unit unit) "green_data"
  = Ok (Some (VArray (const_band 4 4 2.8000000000000003%float))) ∧
  (2.8000000000000003 ≠ 2.7)%float.
Proof.
  split; [vm_compute; reflexivity|]. by apply float_neq.
Qed.

(** Values below 0 and above 1 are stacked as they are. *)
Lemma stacking_is_channel_last_and_unclipped_witness :
  ∃ rgb,
    stack_rgb (demo_locals [[4; -2]] [[0.5; 7]] [[16; 300]])%float
    = Ok (tt, <["rgb_data" := VArray3 rgb]>
                (demo_locals [[4; -2]] [[0.5; 7]] [[16; 300]])%float) ∧
    lookup2 rgb 0 0 = Some [4; 0.5; 16]%float ∧
    lookup2 rgb 0 1 = Some [-2; 7; 300]%float.
Proof.
  destruct (stacking_is_channel_last_and_unclipped
              (demo_locals [[4; -2]] [[0.5; 7]] [[16; 300]])%float
              [[4; -2]]%float [[0.5; 7]]%float [[16; 300]]%float 1 2
              eq_refl eq_refl eq_refl eq_refl eq_refl eq_refl)
    as (rgb & Hrun & _ & _ & _ & Hpt).
  exists rgb. split; [assumption|]. split.
  - exact (Hpt 0 0 4%float 0.5%float 16%float eq_refl eq_refl eq_refl).
  - exact (Hpt 0 1 (-2)%float 7%float 300%float eq_refl eq_refl eq_refl).
Defined.

(** A pixel with raw samples 0, 1e-5 and -3. *)
Lemma fill_pixels_pass_through_witness :
  ∃ locals' rgb,
    band_combiner (demo_locals [[0; 4]] [[1e-5; 9]] [[-3; 16]])%float
    = Ok (tt, locals') ∧
    locals' !! "rgb_data" = Some (VArray3 rgb) ∧
    lookup2 rgb 0 0 = Some [1; 1; 1]%float.
Proof.
  destruct (fill_pixels_pass_through
              (demo_locals [[0; 4]] [[1e-5; 9]] [[-3; 16]])%float
              [[0; 4]]%float [[1e-5; 9]]%float [[-3; 16]]%float 1 2 0 0
              0%float 1e-5%float (-3)%float
              eq_refl eq_refl eq_refl eq_refl eq_refl eq_refl
              eq_refl eq_refl eq_refl eq_refl eq_refl eq_refl)
    as (locals' & rgb & Hrun & Hrgb & Hpx & _).
  exists locals', rgb. repeat split; assumption.
Defined.

(** A NaN in the red band and an infinity in the blue band. *)
Lemma non_finite_values_pass_through_witness :
  ∃ locals' rgb,
    band_combiner (demo_locals [[nan]] [[0.25]]%float [[infinity]])
    = Ok (tt, locals') ∧
    locals' !! "rgb_data" = Some (VArray3 rgb) ∧
    (∃ y z, lookup2 rgb 0 0 = Some [nan; y; z]) ∧
    (∃ x y, lookup2 rgb 0 0 = Some [x; y; infinity]).
Proof.
  destruct (proj1 (non_finite_values_pass_through
              (demo_locals [[nan]] [[0.25]]%float [[infinity]])
              [[nan]] [[0.25]]%float [[infinity]] 1 1
              eq_refl eq_refl eq_refl eq_refl eq_refl eq_refl))
    as (locals' & rgb & Hrun & Hrgb & Hpt).
  exists locals', rgb. split; [assumption|]. split; [assumption|]. split.
  - exact (proj1 (Hpt 0 0 nan (or_introl eq_refl)) eq_refl).
  - exact (proj2 (Hpt 0 0 infinity (or_intror eq_refl)) eq_refl).
Defined.

(** C8: a NaN in the red band survives the clipping and the combiner
    returns a composite that holds it. *)
Lemma non_finite_value_counterexample :
  np_setitem [[nan]] (np_where (np_less_equal [[nan]] 0.0001)) 1 = [[nan]] ∧
  var_after band_combiner (demo_locals [[nan]] [[0.25]] [[16]])%float "rgb_data"
  = Ok (Some (VArray3 [[[nan; nan; 4]]]))%float.
Proof.
  split; [reflexivity|]. vm_compute. reflexivity.
Qed.



(** On the two sample channels the bilinear surface takes the values
    of the grid at the nodes. *)
Lemma bilinear_at_exact_on_sample_channel :
  exact_at_nodes bilinear_at (ds_x sample_channel) (ds_y sample_channel)
    (ds_grid sample_channel).
Proof.
  intros [|[|j]] [|[|i]] xv yv v Hx Hy Hv; try done;
    apply (inj Some) in Hx, Hy, Hv; by subst.
Qed.

Lemma bilinear_at_exact_on_descending_channel :
  exact_at_nodes bilinear_at (ds_x descending_channel)
    (ds_y descending_channel) (ds_grid descending_channel).
Proof.
  intros [|[|j]] [|[|i]] xv yv v Hx Hy Hv; try done;
    apply (inj Some) in Hx, Hy, Hv; by subst.
Qed.

(** The same field stored with a decreasing and with an increasing [y]
    axis: the first comes back as it is, the second upside down. *)
Lemma round_trip_depends_on_axis_order_witness :
  resample descending_channel descending_channel
  = Ok ([0; 1], [1; 0], [[3; 4]; [1; 2]])%float ∧
  resample sample_channel sample_channel
  = Ok ([0; 1], [0; 1], [[3; 4]; [1; 2]])%float.
Proof.
  split.
  - exact (proj1 (proj2 (round_trip_depends_on_axis_order bilinear_at
             descending_channel (le_n 2) (le_n 2) eq_refl eq_refl eq_refl
             bilinear_at_exact_on_descending_channel)) eq_refl eq_refl).
  - exact (proj2 (proj2 (round_trip_depends_on_axis_order bilinear_at
             sample_channel (le_n 2) (le_n 2) eq_refl eq_refl eq_refl
             bilinear_at_exact_on_sample_channel)) eq_refl eq_refl).
Defined.

(** C3: a channel on strictly increasing axes, resampled onto its own
    axes, comes back with its two rows swapped. *)
Lemma resample_round_trip_counterexample :
  strictly_monotonic (ds_x sample_channel) = true ∧
  strictly_monotonic (ds_y sample_channel) = true ∧
  ∃ z,
    resample sample_channel sample_channel
    = Ok (ds_x sample_channel, ds_y sample_channel, z) ∧
    lookup2 z 0 0 = Some 3%float ∧
    lookup2 (ds_grid sample_channel) 0 0 = Some 1%float ∧
    z ≠ ds_grid sample_channel.
Proof.
  split; [reflexivity|]. split; [reflexivity|].
  exists [[3; 4]; [1; 2]]%float. split; [vm_compute; reflexivity|].
  split; [reflexivity|]. split; [reflexivity|].
  intros H. apply (f_equal (fun a => get2 a 0 0)) in H.
  revert H. by apply float_neq.
Qed.

(** The sample channel resampled onto target rows [y = 0] and [y = 5],
    given in increasing and in decreasing order.  In decreasing order
    every row holds the values of its own [y]; in increasing order the
    row of [y = 0] holds the fill value of [y = 5] and the row of
    [y = 5] the values interpolated at [y = 0]. *)
Lemma resampled_entries_follow_sorted_axes_witness :
  (∃ z,
     resample sample_channel descending_target
     = Ok (ds_x descending_target, ds_y descending_target, z) ∧
     lookup2 z 0 0 = Some 0%float ∧ lookup2 z 1 0 = Some 1%float ∧
     lookup2 z 1 1 = Some 2%float) ∧
  (∃ z,
     resample sample_channel sample_target
     = Ok (ds_x sample_target, ds_y sample_target, z) ∧
     lookup2 z 1 0 = Some 1%float ∧ lookup2 z 0 0 = Some 0%float).
Proof.
  split.
  - destruct (proj1 (resampled_entries_follow_sorted_axes bilinear_at
                       sample_channel descending_target _ _ _ eq_refl)
                eq_refl (le_n 2) (le_n 2) (le_S _ _ (le_n 1)) (le_n 2))
      as (z & Hrun & _ & _ & Hdown & _).
    exists z. split; [exact Hrun|].
    split; [exact (Hdown eq_refl eq_refl 0 0 _ _ eq_refl eq_refl)|].
    split; [exact (Hdown eq_refl eq_refl 1 0 _ _ eq_refl eq_refl)|].
    exact (Hdown eq_refl eq_refl 1 1 _ _ eq_refl eq_refl).
  - destruct (proj1 (resampled_entries_follow_sorted_axes bilinear_at
                       sample_channel sample_target _ _ _ eq_refl)
                eq_refl (le_n 2) (le_n 2) (le_S _ _ (le_n 1)) (le_n 2))
      as (z & Hrun & _ & _ & _ & Hup).
    exists z. split; [exact Hrun|].
    split; [exact (Hup eq_refl eq_refl 0 0 _ _ eq_refl eq_refl)|].
    exact (Hup eq_refl eq_refl 1 0 _ _ eq_refl eq_refl).
Defined.

(** C6: the target row [y = 5] lies outside the source envelope, yet its
    entries hold interpolated values, and the entries of the row [y = 0],
    where the source field is 1 and 2, hold the fill value. *)
Lemma resample_fill_counterexample :
  ∃ z,
    resample sample_channel sample_target
    = Ok (ds_x sample_target, ds_y sample_target, z) ∧
    ds_y sample_target !! 1 = Some 5%float ∧
    out_of_bounds (ds_y sample_channel) 5 = true ∧
    lookup2 z 1 0 = Some 1%float ∧
    (1 ≠ 0)%float ∧
    ds_x sample_target !! 0 = Some 0%float ∧
    ds_y sample_target !! 0 = Some 0%float ∧
    out_of_bounds (ds_x sample_channel) 0
    || out_of_bounds (ds_y sample_channel) 0 = false ∧
    bilinear_at (ds_x sample_channel) (ds_y sample_channel)
      (ds_grid sample_channel) 0 0 = 1%float ∧
    lookup2 z 0 0 = Some 0%float.
Proof.
  exists [[0; 0]; [1; 2]]%float. split; [vm_compute; reflexivity|].
  repeat split; try reflexivity. by apply float_neq.
Qed.

(** A run in which the catalog, metpy and the interpolation all succeed. *)
Lemma make_RGB_data_never_returns_witness :
  make_RGB_data id sample_catalog Ok sample_parse_cf sample_crs
    bilinear_interp2d sample_strptime ∅ "20181107" "Mesoscale-1" (-2)
  = Raise (UnboundLocalError "blue_data").
Proof.
  destruct (proj2 (make_RGB_data_never_returns id sample_catalog Ok
                     sample_parse_cf sample_crs bilinear_interp2d
                     sample_strptime ∅ "20181107" "Mesoscale-1" (-2))
              _ eq_refl)
    as (_ & _ & _ & Hres).
  exact Hres.
Defined.

(** * Further properties of the notebook's code *)

(** ** Indexing the catalog *)

Lemma py_getitem_nonneg {A : Type} (l : list A) k a :
  l !! k = Some a → py_getitem l (Z.of_nat k) = Ok a.
Proof.
  intros Hk. pose proof (lookup_lt_Some _ _ _ Hk) as Hlt.
  unfold py_getitem.
  destruct (Z.ltb_spec (Z.of_nat k) 0); [lia|].
  destruct (Z.ltb_spec (Z.of_nat k) 0); [lia|].
  destruct (Z.leb_spec (Z.of_nat (length l)) (Z.of_nat k)); [lia|].
  simpl. by rewrite Nat2Z.id, Hk.
Qed.

Lemma py_getitem_from_end {A : Type} (l : list A) k a :
  l !! k = Some a → py_getitem l (Z.of_nat k - Z.of_nat (length l)) = Ok a.
Proof.
  intros Hk. pose proof (lookup_lt_Some _ _ _ Hk) as Hlt.
  unfold py_getitem.
  destruct (Z.ltb_spec (Z.of_nat k - Z.of_nat (length l)) 0); [|lia].
  replace (Z.of_nat k - Z.of_nat (length l) + Z.of_nat (length l))%Z
    with (Z.of_nat k) by lia.
  destruct (Z.ltb_spec (Z.of_nat k) 0); [lia|].
  destruct (Z.leb_spec (Z.of_nat (length l)) (Z.of_nat k)); [lia|].
  simpl. by rewrite Nat2Z.id, Hk.
Qed.

Lemma py_getitem_out_of_range {A : Type} (l : list A) idx :
  (idx < - Z.of_nat (length l) ∨ Z.of_nat (length l) ≤ idx)%Z →
  py_getitem l idx = Raise (IndexError "list index out of range").
Proof.
  intros Hout. unfold py_getitem.
  destruct (Z.ltb_spec idx 0).
  - destruct (Z.ltb_spec (idx + Z.of_nat (length l)) 0); [done|lia].
  - destruct (Z.ltb_spec idx 0); [lia|].
    destruct (Z.leb_spec (Z.of_nat (length l)) idx); [done|lia].
Qed.

Section OpenDataset.

Context {Date CatalogEntry : Type}.
Variable strftime_Ymd : Date → string.
Variable TDSCatalog : string → res (list CatalogEntry).
Variable remote_access : CatalogEntry → res Dataset.

(** X1. [open_dataset] picks the dataset as a Python index does: with
    [n] datasets in the catalog, the [k]-th one is opened for the index
    [k] as well as for the index [k - n] counted from the end (so [-1] is
    the last and [-2] the one before it), and an index below [-n] or from
    [n] on raises [IndexError] instead of wrapping around. *)
Theorem open_dataset_indexes_like_python date channel region cat :
  TDSCatalog (goes16_catalog_url region channel (strftime_Ymd date)) = Ok cat →
  (∀ k entry, cat !! k = Some entry →
     open_dataset strftime_Ymd TDSCatalog remote_access date channel region
       (Z.of_nat k) = remote_access entry ∧
     open_dataset strftime_Ymd TDSCatalog remote_access date channel region
       (Z.of_nat k - Z.of_nat (length cat)) = remote_access entry) ∧
  (∀ idx, (idx < - Z.of_nat (length cat) ∨ Z.of_nat (length cat) ≤ idx)%Z →
     open_dataset strftime_Ymd TDSCatalog remote_access date channel region idx
     = Raise (IndexError "list index out of range")).
Proof.
  intros Hcat. unfold open_dataset, goes16_catalog_url in *.
  rewrite Hcat. simpl. split.
  - intros k entry Hk.
    by rewrite (py_getitem_nonneg _ _ _ Hk), (py_getitem_from_end _ _ _ Hk).
  - intros idx Hout. by rewrite (py_getitem_out_of_range _ _ Hout).
Qed.

End OpenDataset.

(** ** The exceptions of [make_RGB_data] *)

Section MakeRGBExceptions.

Context {Date CatalogEntry DataArray Proj Datetime : Type}.
Variable strftime_Ymd : Date → string.
Variable TDSCatalog : string → res (list CatalogEntry).
Variable remote_access : CatalogEntry → res Dataset.
Variable parse_cf : Dataset → string → res DataArray.
Variable cartopy_crs : DataArray → res Proj.
Variable interp2d :
  list float → list float → Dataset → float →
  res (list float → list float → res (list (list float))).
Variable strptime : string → string → res Datetime.
Local Abbreviation pyval := (@pyval DataArray Proj Datetime).
Variable globals : gmap string pyval.

Local Abbreviation open_dataset' :=
  (open_dataset strftime_Ymd TDSCatalog remote_access).
Local Abbreviation load_channels' :=
  (load_channels (Datetime:=Datetime) strftime_Ymd TDSCatalog remote_access
     parse_cf cartopy_crs interp2d).
Local Abbreviation make_RGB_data' :=
  (make_RGB_data strftime_Ymd TDSCatalog remote_access parse_cf cartopy_crs
     interp2d strptime globals).
Local Abbreviation raised_by_library' :=
  (raised_by_library TDSCatalog remote_access parse_cf cartopy_crs interp2d).

Lemma open_dataset_raise date channel region idx e :
  open_dataset' date channel region idx = Raise e →
  e = IndexError "list index out of range" ∨ raised_by_library' e.
Proof.
  unfold open_dataset, res_bind, raised_by_library.
  destruct (TDSCatalog _) as [cat|e1] eqn:Hcat; [|intros [= <-]; eauto 8].
  destruct (py_getitem cat idx) as [entry|e2] eqn:Hget.
  - intros Hacc. eauto 8.
  - intros [= <-]. left. unfold py_getitem in Hget.
    repeat case_match; by simplify_eq.
Qed.

Lemma interpolate_red_channel_raise red blue e :
  interpolate_red_channel interp2d red blue = Raise e →
  raised_by_library' e.
Proof.
  unfold interpolate_red_channel, res_bind, raised_by_library.
  destruct (interp2d _ _ _ _) as [f|e1] eqn:Hf; [|intros [= <-]; eauto 10].
  destruct (f _ _) as [z|e2] eqn:Hz; [done|].
  intros [= <-]. do 5 right. eauto 10.
Qed.

Ltac lookups H :=
  repeat (rewrite lookup_insert_eq in H || rewrite lookup_insert_ne in H by done).

Ltac step_inv :=
  match goal with
  | H : bind _ _ _ = Ok _ |- _ =>
      apply bind_ok_inv in H as (? & ? & ? & H)
  | H : bind _ _ _ = Raise _ |- _ =>
      apply bind_raise_inv in H as [H|(? & ? & ? & H)]
  | H : store_fast _ _ _ = Ok _ |- _ =>
      apply store_fast_ok_inv in H; subst
  | H : store_fast _ _ _ = Raise _ |- _ => discriminate H
  | H : load_fast _ _ = Ok _ |- _ =>
      apply load_fast_ok_inv in H as [-> H]; lookups H; injection H as <-
  | H : load_fast _ _ = Raise _ |- _ =>
      unfold load_fast in H; lookups H; discriminate H
  | H : lift _ _ = Ok _ |- _ =>
      apply lift_ok_inv in H as [-> H]
  | H : lift _ _ = Raise _ |- _ => apply lift_raise in H
  | H : load_int _ _ = _ |- _ => unfold load_int in H
  | H : load_dataset _ _ = _ |- _ => unfold load_dataset in H
  | H : load_dataarray _ _ = _ |- _ => unfold load_dataarray in H
  | H : as_int (VInt _) = Ok _ |- _ => injection H as <-
  | H : as_dataset (VDataset _) = Ok _ |- _ => injection H as <-
  | H : as_dataarray (VDataArray _) = Ok _ |- _ => injection H as <-
  | H : as_int (VInt _) = Raise _ |- _ => discriminate H
  | H : as_dataset (VDataset _) = Raise _ |- _ => discriminate H
  | H : as_dataarray (VDataArray _) = Raise _ |- _ => discriminate H
  end.

(** If the statements before the clipping raise, the exception comes from
    a library call or from indexing the catalog. *)
Lemma load_channels_raise date region idx e :
  load_channels' date region idx ∅ = Raise e →
  e = IndexError "list index out of range" ∨ raised_by_library' e.
Proof.
  unfold load_channels. intros H.
  repeat step_inv;
    try (by eapply open_dataset_raise);
    try (right; by eapply interpolate_red_channel_raise);
    try (right; unfold raised_by_library; by eauto 10).
Qed.

Lemma bind_raise_result {A B : Type} (m : M pyval A) (k : A → M pyval B)
    (locals : gmap string pyval) e :
  m locals = Raise e →
  match bind m k locals with
  | Ok (result, _) => Ok result
  | Raise e' => Raise e'
  end = Raise e.
Proof. intros H. by rewrite (bind_raise _ _ _ _ H). Qed.

(** X2. [make_RGB_data] raises on every call, and what it raises is the
    [UnboundLocalError] for [blue_data], the [IndexError] of the catalog
    index, or an exception that one of the library calls (the catalog,
    the remote access, [parse_cf], the projection, the interpolation)
    raised: it never fails with an error about another of its own
    variables, and the [return] with its undefined [proj_var] is never
    reached. *)
Theorem make_RGB_data_exceptions date region idx :
  ∃ e,
    make_RGB_data' date region idx = Raise e ∧
    (e = UnboundLocalError "blue_data" ∨
     e = IndexError "list index out of range" ∨
     raised_by_library' e).
Proof.
  unfold make_RGB_data.
  destruct (load_channels' date region idx ∅) as [[[] locals]|e] eqn:Hload.
  - destruct (load_channels_locals _ _ _ _ _ _ _ _ _ _ Hload)
      as ([a Hr] & Hb & _).
    exists (UnboundLocalError "blue_data"). split; [|by left].
    rewrite (bind_run _ _ _ _ _ Hload).
    by rewrite (bind_raise _ _ _ _ (band_combiner_unbound_blue _ _ Hr Hb)).
  - exists e. split.
    + by rewrite (bind_raise _ _ _ _ Hload).
    + right. by apply (load_channels_raise date region idx).
Qed.

Ltac run_forward :=
  repeat first
    [ rewrite lookup_insert_eq
    | rewrite lookup_insert_ne by done
    | progress cbn [as_int as_dataset as_dataarray] ].

(** X3. When the three datasets open and the metadata parse, an exception
    of the interpolation (the [TypeError] of the recorded run, say: the
    whole red dataset is handed to [interp2d] as its grid) is the
    exception of [make_RGB_data]; the red channel is resampled onto the
    axes of the blue one. *)
Theorem interpolation_failure_propagates
    date region idx red blue green red_dat blue_dat green_dat proj e :
  open_dataset' date 2 region idx = Ok red →
  open_dataset' date 1 region idx = Ok blue →
  open_dataset' date 3 region idx = Ok green →
  parse_cf red "Sectorized_CMI" = Ok red_dat →
  parse_cf blue "Sectorized_CMI" = Ok blue_dat →
  parse_cf green "Sectorized_CMI" = Ok green_dat →
  cartopy_crs green_dat = Ok proj →
  interpolate_red_channel interp2d red blue = Raise e →
  make_RGB_data' date region idx = Raise e.
Proof.
  intros Hred Hblue Hgreen Hrd Hbd Hgd Hproj Hinterp.
  unfold make_RGB_data. apply bind_raise_result.
  unfold load_channels, bind, store_fast, load_int, load_dataset,
    load_dataarray, load_fast, lift, bind.
  run_forward. rewrite Hred. run_forward. rewrite Hblue. run_forward.
  rewrite Hgreen. run_forward. rewrite Hrd. run_forward.
  rewrite Hbd. run_forward. rewrite Hgd. run_forward.
  rewrite Hproj. run_forward. by rewrite Hinterp.
Qed.

End MakeRGBExceptions.

(** ** The end of [make_RGB_data] *)

Section Finish.

Context {DataArray Proj Datetime : Type}.
Variable strptime : string → string → res Datetime.
Local Abbreviation pyval := (@pyval DataArray Proj Datetime).
Variable globals : gmap string pyval.
Implicit Types (locals : gmap string pyval) (r g b : list (list float)).

(** The combiner leaves every other variable as it was. *)
Lemma band_combiner_with_frame wg wb wr h w locals r g b :
  locals !! "red_data" = Some (VArray r) →
  locals !! "blue_data" = Some (VArray b) →
  locals !! "green_data" = Some (VArray g) →
  rect h w r → rect h w g → rect h w b →
  ∃ locals' rgb,
    band_combiner_with wg wb wr locals = Ok (tt, locals') ∧
    locals' !! "rgb_data" = Some (VArray3 rgb) ∧
    rect h w rgb ∧
    (∀ i j, i < h → j < w →
       lookup2 rgb i j
       = Some [enhanced (get2 r i j);
               (enhanced (get2 g i j) * wg + enhanced (get2 b i j) * wb
                + enhanced (get2 r i j) * wr)%float;
               enhanced (get2 b i j)]) ∧
    ∀ name, name ≠ "red_data" → name ≠ "blue_data" → name ≠ "green_data" →
            name ≠ "rgb_data" → locals' !! name = locals !! name.
Proof.
  intros Hr Hb Hg Rr Rg Rb.
  destruct (prepare_run locals r g b) as (l1 & Hprep & Hr1 & Hb1 & Hg1 & Hframe);
    try done.
  assert (Rr1 : rect h w (np_sqrt (clipped r)))
    by by apply rect_np_sqrt, rect_clipped.
  assert (Rg1 : rect h w (np_sqrt (clipped g)))
    by by apply rect_np_sqrt, rect_clipped.
  assert (Rb1 : rect h w (np_sqrt (clipped b)))
    by by apply rect_np_sqrt, rect_clipped.
  destruct (fake_green_with_run wg wb wr h w l1 _ _ _ Hr1 Hb1 Hg1)
    as (g' & Hfake & Rg' & Pg'); try done.
  destruct (stack_rgb_run h w (<["green_data" := VArray g']> l1)
              (np_sqrt (clipped r)) g' (np_sqrt (clipped b)))
    as (rgb & Hstack & Rrgb & Prgb); try done; try by simplify_map_eq.
  exists (<["rgb_data" := VArray3 rgb]> (<["green_data" := VArray g']> l1)), rgb.
  split; [|split; [|split; [done|split]]].
  - unfold band_combiner_with.
    unfold bind in Hprep. unfold bind at 1.
    destruct (clip_maxes locals) as [[[] l0]|e]; [|discriminate Hprep].
    unfold bind at 1. rewrite Hprep.
    unfold bind at 1. rewrite Hfake.
    apply Hstack.
  - by simplify_map_eq.
  - intros i j Hi Hj. rewrite Prgb, Pg' by done.
    unfold np_sqrt, clipped, enhanced.
    by rewrite !(get2_fmap _ h w) by (done || by apply rect_fmap).
  - intros name ? ? ? ?. rewrite !lookup_insert_ne by done. by apply Hframe.
Qed.

(** X4. Even with the three bands assigned, the [return] of
    [make_RGB_data] depends on a module-level [proj_var]: without one the
    combiner and the closing statements end in [NameError]; with one, the
    call returns that module-level value (whatever the local [proj] is)
    together with the parsed start time of the green dataset, the axes of
    the green dataset (whatever [x] and [y] held before) and the
    composite, whose pixel is the enhanced red, the synthesized green and
    the enhanced blue. *)
Theorem return_reads_module_level_proj_var locals r g b h w green t :
  locals !! "red_data" = Some (VArray r) →
  locals !! "blue_data" = Some (VArray b) →
  locals !! "green_data" = Some (VArray g) →
  has_shape h w r = true → has_shape h w g = true → has_shape h w b = true →
  locals !! "green_ds" = Some (VDataset green) →
  strptime (start_date_time green) "%Y%j%H%M%S" = Ok t →
  (globals !! "proj_var" = None →
   (band_combiner ;;; finish strptime globals) locals
   = Raise (NameError "proj_var")) ∧
  (∀ p, globals !! "proj_var" = Some p →
   ∃ locals' rgb,
     (band_combiner ;;; finish strptime globals) locals
     = Ok ((VDatetime t, VCoords (ds_x green), VCoords (ds_y green), p,
            VArray3 rgb), locals') ∧
     ∀ i j x y z,
       lookup2 r i j = Some x → lookup2 g i j = Some y →
       lookup2 b i j = Some z →
       lookup2 rgb i j
       = Some [enhanced x;
               (enhanced y * 0.1 + enhanced z * 0.45 + enhanced x * 0.45)%float;
               enhanced z]).
Proof.
  intros Hr Hb Hg Rr%has_shape_rect Rg%has_shape_rect Rb%has_shape_rect
    Hds Htime.
  destruct (band_combiner_with_frame 0.1 0.45 0.45 h w locals r g b)
    as (l1 & rgb & Hrun & Hrgb & Rrgb & Prgb & Hframe); try done.
  assert (Hds1 : l1 !! "green_ds" = Some (VDataset green))
    by by rewrite Hframe.
  assert (Hfin : (band_combiner ;;; finish strptime globals) locals
                 = finish strptime globals l1).
  { unfold band_combiner. by rewrite (bind_run _ _ _ _ _ Hrun). }
  rewrite Hfin. clear Hfin.
  unfold finish, bind, store_fast, load_dataset, load_fast, load_global,
    lift, ret, bind.
  rewrite Hds1. cbn [as_dataset].
  rewrite lookup_insert_ne, Hds1 by done. cbn [as_dataset].
  rewrite !lookup_insert_ne, Hds1 by done. cbn [as_dataset].
  rewrite Htime.
  repeat (rewrite lookup_insert_eq || rewrite lookup_insert_ne by done).
  split.
  - by intros ->.
  - intros p ->. rewrite !lookup_insert_ne, Hrgb by done.
    eexists _, rgb. split; [done|].
    intros i j x y z Hx Hy Hz.
    destruct (lookup2_rect_lt h w r i j x Rr Hx) as [Hi Hj].
    rewrite Prgb by done.
    by rewrite (get2_lookup2 _ _ _ _ Hx), (get2_lookup2 _ _ _ _ Hy),
      (get2_lookup2 _ _ _ _ Hz).
Qed.

End Finish.

(** ** The cell that calls [make_RGB_data] *)

Section CallingCell.

Context {CatalogEntry DataArray Proj Datetime : Type}.
Local Abbreviation pyval := (@pyval DataArray Proj Datetime).
Local Abbreviation services := (Services CatalogEntry DataArray Proj Datetime).

Lemma make_RGB_data_raises (sv : services) (names : gmap string pyval)
    date region idx :
  ∃ e,
    make_RGB_data (sv_strftime_Ymd sv) (sv_TDSCatalog sv) (sv_remote_access sv)
      (sv_parse_cf sv) (sv_cartopy_crs sv) (sv_interp2d sv) (sv_strptime sv)
      names date region idx = Raise e.
Proof.
  unfold make_RGB_data.
  destruct (load_channels (Datetime:=Datetime) (sv_strftime_Ymd sv)
              (sv_TDSCatalog sv) (sv_remote_access sv) (sv_parse_cf sv)
              (sv_cartopy_crs sv) (sv_interp2d sv) date region idx ∅)
    as [[[] locals]|e] eqn:Hload.
  - destruct (load_channels_locals _ _ _ _ _ _ _ _ _ _ Hload)
      as ([a Hr] & Hb & _).
    exists (UnboundLocalError "blue_data").
    rewrite (bind_run _ _ _ _ _ Hload).
    by rewrite (bind_raise _ _ _ _ (band_combiner_unbound_blue _ _ Hr Hb)).
  - exists e. by rewrite (bind_raise _ _ _ _ Hload).
Qed.

(** One run of the cell raises and can only have assigned [date]. *)
Lemma run_call_cell (sv : services) (names : gmap string pyval) :
  ∃ e names',
    run_cell (call_cell sv) names = (Raise e, names') ∧
    ∀ name, name ≠ "date" → names' !! name = names !! name.
Proof.
  unfold call_cell. cbn [run_cell].
  unfold bind at 1, lift at 1.
  destruct (sv_utcnow sv) as [now|e]; [|by exists e, names].
  unfold store_fast at 1.
  unfold bind at 1, load_name at 1, load_global at 1, lift at 1.
  rewrite lookup_insert_eq.
  unfold bind at 1, lift at 1. cbn [as_datetime].
  unfold bind at 1, get_namespace at 1.
  unfold bind at 1, lift at 1.
  destruct (make_RGB_data_raises sv (<["date" := VDatetime now]> names)
              now "Mesoscale-1" (-2)) as [e ->].
  exists e, (<["date" := VDatetime now]> names). split; [done|].
  intros name Hname. by rewrite lookup_insert_ne.
Qed.

(** X5. The cell that calls [make_RGB_data] raises each time it is run,
    and however often it is run, whatever the services answer,
    [timestamp], [x], [y], [proj_var] and [rgb_data] are left as they
    were: a name among them that was undefined stays undefined. *)
Theorem calling_cell_never_assigns_its_results :
  (∀ (sv : services) (names : gmap string pyval),
     ∃ e, (run_cell (call_cell sv) names).1 = Raise e) ∧
  (∀ (runs : list services) (names : gmap string pyval),
     rerun_call_cell runs names !! "timestamp" = names !! "timestamp" ∧
     rerun_call_cell runs names !! "x" = names !! "x" ∧
     rerun_call_cell runs names !! "y" = names !! "y" ∧
     rerun_call_cell runs names !! "proj_var" = names !! "proj_var" ∧
     rerun_call_cell runs names !! "rgb_data" = names !! "rgb_data").
Proof.
  split.
  - intros sv names. destruct (run_call_cell sv names) as (e & names' & -> & _).
    by exists e.
  - assert (Hkeep : ∀ (runs : list services) (names : gmap string pyval) name,
               name ≠ "date" →
               rerun_call_cell runs names !! name = names !! name).
    { unfold rerun_call_cell.
      induction runs as [|sv runs IH]; intros names name Hname; [done|].
      cbn [foldl]. rewrite IH by done.
      destruct (run_call_cell sv names) as (e & names' & -> & Hkeep).
      by apply Hkeep. }
    intros runs names. repeat split; by apply Hkeep.
Qed.

End CallingCell.

(** ** What the clipping guarantees *)

Lemma clip_sample_idempotent x :
  clip_sample 0.0001 1 (clip_sample 0.0001 1 x) = clip_sample 0.0001 1 x.
Proof.
  unfold clip_sample. destruct (PrimFloat.leb x 0.0001) eqn:Hx; [done|].
  by rewrite Hx.
Qed.

Lemma clip_sample_above x : PrimFloat.leb (clip_sample 0.0001 1 x) 0.0001 = false.
Proof.
  unfold clip_sample. by destruct (PrimFloat.leb x 0.0001) eqn:Hx.
Qed.

Lemma clipped_idempotent a : clipped (clipped a) = clipped a.
Proof.
  unfold clipped. rewrite <- list_fmap_compose. apply list_fmap_ext.
  intros i row _. simpl. rewrite <- list_fmap_compose.
  apply list_fmap_ext. intros j x _. apply clip_sample_idempotent.
Qed.

Lemma clipped_above a i j x :
  lookup2 (clipped a) i j = Some x → PrimFloat.leb x 0.0001 = false.
Proof.
  unfold clipped. rewrite lookup2_fmap.
  destruct (lookup2 a i j) as [y|]; simpl; [|done].
  intros [= <-]. apply clip_sample_above.
Qed.

Section Clipping.

Context {DataArray Proj Datetime : Type}.
Local Abbreviation pyval := (@pyval DataArray Proj Datetime).
Implicit Types (locals : gmap string pyval) (r g b : list (list float)).

(** X6. After the clipping statements no sample of any of the three bands
    is [<= 0.0001] (so none is negative or zero when the square root is
    taken), and running the clipping statements a second time changes
    nothing. *)
Theorem clipping_is_idempotent locals r g b :
  locals !! "red_data" = Some (VArray r) →
  locals !! "blue_data" = Some (VArray b) →
  locals !! "green_data" = Some (VArray g) →
  ∃ locals' r' g' b',
    clip_maxes locals = Ok (tt, locals') ∧
    clip_maxes locals' = Ok (tt, locals') ∧
    locals' !! "red_data" = Some (VArray r') ∧
    locals' !! "green_data" = Some (VArray g') ∧
    locals' !! "blue_data" = Some (VArray b') ∧
    ∀ i j x,
      lookup2 r' i j = Some x ∨ lookup2 g' i j = Some x ∨ lookup2 b' i j = Some x →
      PrimFloat.leb x 0.0001 = false.
Proof.
  intros Hr Hb Hg.
  set (locals' := <["green_data" := VArray (clipped g)]>
                    (<["blue_data" := VArray (clipped b)]>
                       (<["red_data" := VArray (clipped r)]> locals))).
  assert (Hr' : locals' !! "red_data" = Some (VArray (clipped r)))
    by (unfold locals'; by simplify_map_eq).
  assert (Hb' : locals' !! "blue_data" = Some (VArray (clipped b)))
    by (unfold locals'; by simplify_map_eq).
  assert (Hg' : locals' !! "green_data" = Some (VArray (clipped g)))
    by (unfold locals'; by simplify_map_eq).
  exists locals', (clipped r), (clipped g), (clipped b).
  split; [by apply clip_maxes_run|]. split.
  - rewrite (clip_maxes_run _ _ _ _ Hr' Hb' Hg'), !clipped_idempotent.
    do 2 f_equal.
    rewrite (insert_id locals' "red_data") by done.
    rewrite (insert_id locals' "blue_data") by done.
    by rewrite (insert_id locals' "green_data").
  - do 3 (split; [done|]).
    intros i j x [H|[H|H]]; by eapply clipped_above.
Qed.

End Clipping.

(** ** The shapes the combiner accepts *)

Section AcceptedShapes.

Context {DataArray Proj Datetime : Type}.
Local Abbreviation pyval := (@pyval DataArray Proj Datetime).
Implicit Types (locals : gmap string pyval) (r g b : list (list float)).

(** X7. Started with three band arrays, the combiner returns a composite
    exactly when blue has the shape of red and each dimension of green
    equals that of red or is 1 (numpy then repeats the green band along
    it); for all other shapes it raises numpy's [ValueError], from the
    synthesis or from the stacking.  The composite has the rows of the
    red band. *)
Theorem combiner_accepts_exactly_fitting_shapes locals r g b :
  locals !! "red_data" = Some (VArray r) →
  locals !! "blue_data" = Some (VArray b) →
  locals !! "green_data" = Some (VArray g) →
  if accepted_shapes (np_shape r) (np_shape g) (np_shape b)
  then ∃ locals' rgb,
         band_combiner locals = Ok (tt, locals') ∧
         locals' !! "rgb_data" = Some (VArray3 rgb) ∧
         length rgb = length r
  else ∃ msg, band_combiner locals = Raise (ValueError msg).
Proof.
  intros Hr Hb Hg.
  destruct (prepare_run locals r g b) as (l1 & Hprep & Hr1 & Hb1 & Hg1 & _);
    try done.
  assert (Hcomb : band_combiner locals = (fake_green ;;; stack_rgb) l1).
  { unfold band_combiner, band_combiner_with, fake_green.
    unfold bind in Hprep. unfold bind at 1.
    destruct (clip_maxes locals) as [[[] l0]|e]; [|discriminate Hprep].
    unfold bind at 1. by rewrite Hprep. }
  rewrite Hcomb. clear Hcomb Hprep.
  rewrite <- (accepted_shapes_spec (np_shape r) (np_shape g) (np_shape b))
    by apply np_shape_no_rows.
  remember ((fake_green ;;; stack_rgb) l1) as out eqn:Hout.
  unfold fake_green, fake_green_with in Hout.
  unfold bind at 1 in Hout.
  rewrite (bind_run _ _ _ _ _ (load_array_run _ _ _ Hg1)) in Hout.
  rewrite (bind_run _ _ _ _ _ (load_array_run _ _ _ Hb1)) in Hout.
  pose proof (np_add_shape (np_mul_scalar (np_sqrt (clipped g)) 0.1)
                (np_mul_scalar (np_sqrt (clipped b)) 0.45)) as Hgb.
  rewrite !np_shape_prepared in Hgb.
  destruct (broadcast_shapes (np_shape g) (np_shape b)) as [s1|].
  2: { rewrite Hgb in Hout. simpl in Hout. eauto. }
  destruct Hgb as (gb & Hgb & Hs1). rewrite Hgb in Hout.
  unfold bind at 1, lift at 1 in Hout.
  rewrite (bind_run _ _ _ _ _ (load_array_run _ _ _ Hr1)) in Hout.
  pose proof (np_add_shape gb (np_mul_scalar (np_sqrt (clipped r)) 0.45)) as Hgbr.
  rewrite np_shape_prepared, Hs1 in Hgbr.
  destruct (broadcast_shapes s1 (np_shape r)) as [s2|].
  2: { rewrite Hgbr in Hout. simpl in Hout. eauto. }
  destruct Hgbr as (gbr & Hgbr & Hs2). rewrite Hgbr in Hout.
  unfold bind at 1, lift at 1 in Hout.
  unfold store_fast at 1 in Hout. unfold stack_rgb in Hout.
  assert (Hr2 : <["green_data" := VArray gbr]> l1 !! "red_data"
                = Some (VArray (np_sqrt (clipped r)))) by by simplify_map_eq.
  assert (Hg2 : <["green_data" := VArray gbr]> l1 !! "green_data"
                = Some (VArray gbr)) by by simplify_map_eq.
  assert (Hb2 : <["green_data" := VArray gbr]> l1 !! "blue_data"
                = Some (VArray (np_sqrt (clipped b)))) by by simplify_map_eq.
  rewrite (bind_run _ _ _ _ _ (load_array_run _ _ _ Hr2)) in Hout.
  rewrite (bind_run _ _ _ _ _ (load_array_run _ _ _ Hg2)) in Hout.
  rewrite (bind_run _ _ _ _ _ (load_array_run _ _ _ Hb2)) in Hout.
  unfold np_dstack in Hout. cbv zeta in Hout. cbn [forallb] in Hout.
  rewrite !np_shape_enhanced, Hs2, andb_true_r in Hout.
  destruct (shape_eqb s2 (np_shape r) && shape_eqb (np_shape b) (np_shape r)).
  - unfold bind at 1, lift at 1, store_fast in Hout.
    eexists _, _. split; [exact Hout|]. split; [by simplify_map_eq|].
    by rewrite length_tabulate.
  - unfold bind, lift in Hout. eauto.
Qed.

End AcceptedShapes.

(** * The NEXRAD composite notebook *)

(** ** The latest dataset of the catalog *)

Lemma string_compare_trans (a b c : string) :
  String.compare a b ≠ Gt → String.compare b c ≠ Gt → String.compare a c ≠ Gt.
Proof.
  revert b c. induction a as [|ca a IH]; intros [|cb b] [|cc c]; simpl;
    try done.
  unfold Ascii.compare.
  destruct (N.compare_spec (Ascii.N_of_ascii ca) (Ascii.N_of_ascii cb));
    destruct (N.compare_spec (Ascii.N_of_ascii cb) (Ascii.N_of_ascii cc));
    destruct (N.compare_spec (Ascii.N_of_ascii ca) (Ascii.N_of_ascii cc));
    intros Hab Hbc; try done; try lia.
  by apply (IH b c).
Qed.

Lemma string_compare_refl (a : string) : String.compare a a = Eq.
Proof.
  induction a as [|c a IH]; [done|]. simpl.
  unfold Ascii.compare. by rewrite N.compare_refl.
Qed.

Lemma str_le_alt (a b : string) : str_le a b ↔ String.compare a b ≠ Gt.
Proof.
  unfold str_le, String.leb. by destruct (String.compare a b).
Qed.

#[local] Instance str_le_trans : Transitive str_le.
Proof.
  intros a b c. rewrite !str_le_alt. apply string_compare_trans.
Qed.

#[local] Instance str_le_total : Total str_le.
Proof.
  intros a b. unfold str_le.
  destruct (String.leb_total a b) as [->| ->]; [by left|by right].
Qed.

Lemma StronglySorted_last {A : Type} (R : relation A) (l : list A) x :
  StronglySorted R l → last l = Some x → ∀ y, y ∈ l → y = x ∨ R y x.
Proof.
  induction 1 as [|z l Hsorted IH Hall]; [done|].
  destruct l as [|z' l].
  - intros [= <-] y Hy. left. by apply list_elem_of_singleton in Hy.
  - intros Hlast y Hy. change (last (z :: z' :: l)) with (last (z' :: l)) in Hlast.
    apply elem_of_cons in Hy as [->|Hy]; [|by apply IH].
    right. rewrite Forall_forall in Hall. apply Hall.
    rewrite last_lookup in Hlast. by eapply list_elem_of_lookup_2.
Qed.

Lemma py_getitem_last {A : Type} (l : list A) :
  py_getitem l (-1)
  = match last l with
    | Some a => Ok a
    | None => Raise (IndexError "list index out of range")
    end.
Proof.
  destruct (last l) as [a|] eqn:Hlast.
  - rewrite last_lookup in Hlast.
    pose proof (lookup_lt_Some _ _ _ Hlast) as Hlt.
    rewrite <- (py_getitem_from_end l _ a Hlast). f_equal. lia.
  - apply last_None in Hlast as ->. done.
Qed.

(** X8. The notebook picks the dataset whose name is the greatest in the
    order of strings (with the time stamp at the end of the names, the
    latest one): it is a dataset of the catalog, looking it up by its
    name never raises [KeyError], and no dataset of the catalog has a
    greater name.  On a catalog without datasets, [names[-1]] raises
    [IndexError]. *)
Theorem latest_dataset_is_greatest {Entry : Type} (datasets : gmap string Entry) :
  (datasets = ∅ →
   latest_dataset datasets = Raise (IndexError "list index out of range")) ∧
  (datasets ≠ ∅ →
   ∃ latest ds,
     latest_name datasets = Ok latest ∧
     latest_dataset datasets = Ok ds ∧
     datasets !! latest = Some ds ∧
     ∀ name, is_Some (datasets !! name) → String.leb name latest = true).
Proof.
  split.
  - intros ->. unfold latest_dataset, latest_name.
    by rewrite map_to_list_empty.
  - intros Hne. unfold latest_dataset, latest_name, py_sort.
    rewrite py_getitem_last.
    set (names := (map_to_list datasets).*1).
    pose proof (merge_sort_Permutation str_le names) as Hperm.
    pose proof (StronglySorted_merge_sort str_le names) as Hsorted.
    destruct (last (merge_sort str_le names)) as [latest|] eqn:Hlast.
    + assert (Hin : latest ∈ names).
      { rewrite <- Hperm. rewrite last_lookup in Hlast.
        by eapply list_elem_of_lookup_2. }
      apply list_elem_of_fmap in Hin as ([name ds] & -> & Hin).
      apply elem_of_map_to_list in Hin. simpl in *.
      exists name, ds. rewrite Hin. do 3 (split; [done|]).
      intros name' [ds' Hname'].
      assert (Hin' : name' ∈ merge_sort str_le names).
      { rewrite Hperm. apply list_elem_of_fmap. exists (name', ds').
        split; [done|]. by apply elem_of_map_to_list. }
      destruct (StronglySorted_last _ _ _ Hsorted Hlast _ Hin') as [->|Hle].
      * apply Is_true_true. apply str_le_alt.
        by rewrite string_compare_refl.
      * by apply Is_true_true.
    + apply last_None in Hlast.
      assert (names = []) as Hnil.
      { apply Permutation_nil_r. by rewrite <- Hperm, Hlast. }
      apply fmap_nil_inv, map_to_list_empty_iff in Hnil. done.
Qed.

(** ** Subsetting the grid *)

Lemma lookup_every_nth {A : Type} (skip step : nat) (l : list A) i :
  0 < step → every_nth skip step l !! i = l !! (skip + i * step).
Proof.
  intros Hstep. revert skip i.
  induction l as [|x l IH]; intros skip i; [done|].
  destruct skip as [|skip].
  - destruct i as [|i]; [done|].
    replace (0 + S i * step) with (S (step - 1 + i * step)) by lia.
    exact (IH (step - 1) i).
  - exact (IH skip i).
Qed.

Lemma length_every_nth {A : Type} (skip step : nat) (l : list A) i :
  0 < step →
  i < length (every_nth skip step l) ↔ skip + i * step < length l.
Proof.
  intros Hstep.
  rewrite <- !lookup_lt_is_Some. by rewrite lookup_every_nth.
Qed.

Lemma length_every_nth_same {A B : Type} (skip step : nat)
    (l : list A) (k : list B) :
  0 < step → length l = length k →
  length (every_nth skip step l) = length (every_nth skip step k).
Proof.
  intros Hstep Hlen.
  assert (∀ i, i < length (every_nth skip step l)
             ↔ i < length (every_nth skip step k)) as Hiff.
  { intros i. rewrite !length_every_nth by done. by rewrite Hlen. }
  destruct (Nat.lt_trichotomy (length (every_nth skip step l))
              (length (every_nth skip step k))) as [Hlt|[Heq|Hlt]]; [|done|].
  - apply Hiff in Hlt. lia.
  - apply Hiff in Hlt. lia.
Qed.

Lemma py_stride_positive {A : Type} (step : nat) (l : list A) :
  0 < step → py_stride step l = Ok (every_nth 0 step l).
Proof.
  intros Hstep. unfold py_stride.
  by destruct step as [|step]; [lia|].
Qed.

Lemma lookup2_fmap_rows {A B : Type} (f : list A → list B)
    (a : list (list A)) j i :
  lookup2 (f <$> a) j i = a !! j ≫= fun row => f row !! i.
Proof.
  unfold lookup2. rewrite list_lookup_fmap.
  by destruct (a !! j).
Qed.

(** X9. The cell "Grab the data" of the composite-radar notebook, on a
    file whose reflectivity has at least one time step and whose first
    frame has one row per [y] and one column per [x]: for positive
    strides the cell succeeds; the data and its mask have one row per
    kept [y] and one column per kept [x]; the kept coordinates are
    those at the multiples of the stride, times 1000; the sample at row
    [j] and column [i] is the frame's sample at row [j * ystride] and
    column [i * xstride], unchanged, and it is masked exactly when it is
    at most -30. *)
Theorem grab_data_keeps_the_grid_aligned
    (xstride ystride : nat) (file : RadarFile) (frame : ndarray)
    (later : ndarray3) :
  0 < xstride → 0 < ystride →
  rf_reflectivity file = frame :: later →
  rect (length (rf_y file)) (length (rf_x file)) frame →
  ∃ x y m,
    grab_data xstride ystride file = Ok (x, y, m) ∧
    rect (length y) (length x) (ma_data m) ∧
    rect (length y) (length x) (ma_mask m) ∧
    (∀ i, x !! i
          = (fun v => PrimFloat.mul v 1000) <$> rf_x file !! (i * xstride)) ∧
    (∀ j, y !! j
          = (fun v => PrimFloat.mul v 1000) <$> rf_y file !! (j * ystride)) ∧
    (∀ j i, lookup2 (ma_data m) j i
            = lookup2 frame (j * ystride) (i * xstride)) ∧
    (∀ j i, lookup2 (ma_mask m) j i
            = (fun v => PrimFloat.leb v (-30))
              <$> lookup2 frame (j * ystride) (i * xstride)).
Proof.
  intros Hx Hy Hframe [Hrows Hcols].
  unfold grab_data.
  rewrite !py_stride_positive by done. simpl.
  rewrite Hframe. simpl.
  rewrite py_stride_positive by done. simpl.
  eexists _, _, _. split; [done|]. simpl.
  assert (∀ j row, every_nth 0 ystride frame !! j = Some row →
            length (every_nth 0 xstride row)
            = length (every_nth 0 xstride (rf_x file))) as Hwidth.
  { intros j row Hrow. rewrite lookup_every_nth in Hrow by done.
    apply length_every_nth_same; [done|]. by apply Hcols in Hrow. }
  repeat split.
  - rewrite !length_fmap. by apply length_every_nth_same.
  - intros j row. rewrite list_lookup_fmap, length_fmap.
    destruct (every_nth 0 ystride frame !! j) as [row'|] eqn:Hrow; [|done].
    intros [= <-]. eauto.
  - unfold np_less_equal. rewrite !length_fmap.
    by apply length_every_nth_same.
  - intros j row. unfold np_less_equal.
    rewrite !list_lookup_fmap, length_fmap.
    destruct (every_nth 0 ystride frame !! j) as [row'|] eqn:Hrow; [|done].
    intros [= <-]. rewrite length_fmap. eauto.
  - intros i. by rewrite list_lookup_fmap, lookup_every_nth.
  - intros j. by rewrite list_lookup_fmap, lookup_every_nth.
  - intros j i. rewrite lookup2_fmap_rows, lookup_every_nth by done.
    unfold lookup2. simpl.
    destruct (frame !! (j * ystride)) as [row|]; [|done]. simpl.
    by rewrite lookup_every_nth.
  - intros j i. unfold np_less_equal.
    rewrite lookup2_fmap_rows, list_lookup_fmap, lookup_every_nth by done.
    unfold lookup2. simpl.
    destruct (frame !! (j * ystride)) as [row|]; [|done]. simpl.
    by rewrite list_lookup_fmap, lookup_every_nth.
Qed.

(** *** Instances of the further properties *)

Example py_stride_example :
  py_stride 10 (seq 0 25) = Ok [0; 10; 20] ∧
  py_stride 0 (seq 0 25) = Raise (ValueError "slice step cannot be zero").
Proof. split; reflexivity. Qed.

Example latest_name_example :
  latest_name (<["n0r_20181107_1805" := 1]> (<["n0r_20181107_1810" := 2]>
                 (<["n0r_20181107_1755" := 3]> (∅ : gmap string nat))))
  = Ok "n0r_20181107_1810".
Proof. vm_compute. reflexivity. Qed.

(** A catalog of two datasets: [-2] is the first, [-1] and [1] the
    last, and [2] and [-3] are out of range. *)
Lemma open_dataset_indexes_like_python_witness :
  open_dataset id sample_listing Ok "20181107" 2 "Mesoscale-1" (-2) = Ok sample_channel ∧
  open_dataset id sample_listing Ok "20181107" 2 "Mesoscale-1" (-1) = Ok sample_target ∧
  open_dataset id sample_listing Ok "20181107" 2 "Mesoscale-1" 1 = Ok sample_target ∧
  open_dataset id sample_listing Ok "20181107" 2 "Mesoscale-1" 2
  = Raise (IndexError "list index out of range") ∧
  open_dataset id sample_listing Ok "20181107" 2 "Mesoscale-1" (-3)
  = Raise (IndexError "list index out of range").
Proof.
  destruct (open_dataset_indexes_like_python id sample_listing Ok "20181107" 2
              "Mesoscale-1" [sample_channel; sample_target] eq_refl)
    as [Hin Hout].
  split; [exact (proj2 (Hin 0 sample_channel eq_refl))|].
  split; [exact (proj2 (Hin 1 sample_target eq_refl))|].
  split; [exact (proj1 (Hin 1 sample_target eq_refl))|].
  split; [apply Hout; simpl; lia|apply Hout; simpl; lia].
Defined.

(** The recorded run: the datasets open, the metadata parse, and the
    interpolation raises [TypeError]. *)
Lemma interpolation_failure_propagates_witness :
  make_RGB_data id sample_catalog Ok sample_parse_cf sample_crs
    failing_interp2d sample_strptime ∅ "20181107" "Mesoscale-1" (-2)
  = Raise (TypeError "cannot directly convert an xarray.Dataset into a numpy array").
Proof.
  exact (interpolation_failure_propagates id sample_catalog Ok sample_parse_cf
           sample_crs failing_interp2d sample_strptime ∅ "20181107"
           "Mesoscale-1" (-2) sample_channel sample_channel sample_channel
           (ds_grid sample_channel) (ds_grid sample_channel)
           (ds_grid sample_channel) "geostationary" _
           eq_refl eq_refl eq_refl eq_refl eq_refl eq_refl eq_refl eq_refl).
Defined.

(** Three 1x1 bands and a green dataset: without a module-level
    [proj_var] the return raises, with one it returns that value. *)
Lemma return_reads_module_level_proj_var_witness :
  (band_combiner ;;; finish unit_strptime ∅) returning_locals
  = Raise (NameError "proj_var") ∧
  ∃ locals' rgb,
    (band_combiner ;;; finish unit_strptime sample_globals) returning_locals
    = Ok ((VDatetime tt, VCoords [0; 1]%float, VCoords [0; 1]%float, VInt 7,
           VArray3 rgb), locals') ∧
    lookup2 rgb 0 0 = Some [2; 3; 4]%float.
Proof.
  split.
  - exact (proj1 (return_reads_module_level_proj_var unit_strptime ∅ returning_locals
                    [[4]]%float [[9]]%float [[16]]%float 1 1 sample_channel tt
                    eq_refl eq_refl eq_refl eq_refl eq_refl eq_refl eq_refl
                    eq_refl) eq_refl).
  - destruct (proj2 (return_reads_module_level_proj_var unit_strptime
                       sample_globals returning_locals
                       [[4]]%float [[9]]%float [[16]]%float 1 1 sample_channel tt
                       eq_refl eq_refl eq_refl eq_refl eq_refl eq_refl eq_refl
                       eq_refl) (VInt 7) eq_refl)
      as (locals' & rgb & Hrun & Hpx).
    exists locals', rgb. split; [exact Hrun|].
    exact (Hpx 0 0 4%float 9%float 16%float eq_refl eq_refl eq_refl).
Defined.

(** Bands with a zero, a tiny value, the threshold and a NaN. *)
Lemma clipping_is_idempotent_witness :
  ∃ locals',
    clip_maxes (demo_locals [[0; 0.5]] [[1e-5; nan]] [[0.0001; 3]])%float
    = Ok (tt, locals') ∧
    clip_maxes locals' = Ok (tt, locals').
Proof.
  destruct (clipping_is_idempotent
              (demo_locals [[0; 0.5]] [[1e-5; nan]] [[0.0001; 3]])%float
              [[0; 0.5]]%float [[1e-5; nan]]%float [[0.0001; 3]]%float
              eq_refl eq_refl eq_refl)
    as (locals' & r' & g' & b' & Hrun & Hagain & _).
  exists locals'. split; assumption.
Defined.

(** A 1x1 green band against 2x2 red and blue bands is accepted; 4x4
    red and green bands against a 3x3 blue band are not. *)
Lemma combiner_accepts_exactly_fitting_shapes_witness :
  (∃ locals' rgb,
     band_combiner
       (demo_locals (const_band 2 2 4) (const_band 1 1 0.25) (const_band 2 2 16))%float
     = Ok (tt, locals') ∧
     locals' !! "rgb_data" = Some (VArray3 rgb) ∧
     length rgb = 2) ∧
  (∃ msg,
     band_combiner
       (demo_locals (const_band 4 4 4) (const_band 4 4 0.25) (const_band 3 3 16))%float
     = Raise (ValueError msg)).
Proof.
  split.
  - exact (combiner_accepts_exactly_fitting_shapes
             (demo_locals (const_band 2 2 4) (const_band 1 1 0.25)
                (const_band 2 2 16))%float
             (const_band 2 2 4) (const_band 1 1 0.25) (const_band 2 2 16)
             eq_refl eq_refl eq_refl)%float.
  - exact (combiner_accepts_exactly_fitting_shapes
             (demo_locals (const_band 4 4 4) (const_band 4 4 0.25)
                (const_band 3 3 16))%float
             (const_band 4 4 4) (const_band 4 4 0.25) (const_band 3 3 16)
             eq_refl eq_refl eq_refl)%float.
Defined.

(** The strides of the notebook, 10 and 10, on the sample file: three
    columns and two rows are kept. *)
Lemma grab_data_keeps_the_grid_aligned_witness :
  ∃ x y m,
    grab_data 10 10 sample_radar_file = Ok (x, y, m) ∧
    x !! 1 = Some 0%float ∧ x !! 2 = Some 10000%float ∧ x !! 3 = None ∧
    y !! 1 = Some 10000%float ∧ y !! 2 = None ∧
    lookup2 (ma_data m) 0 1 = Some (-30)%float ∧
    lookup2 (ma_mask m) 0 1 = Some true ∧
    lookup2 (ma_data m) 1 2 = Some 10%float ∧
    lookup2 (ma_mask m) 1 2 = Some false.
Proof.
  destruct (grab_data_keeps_the_grid_aligned 10 10 sample_radar_file _ []
              ltac:(lia) ltac:(lia) eq_refl (rect_tabulate 11 21 _))
    as (x & y & m & Hrun & _ & _ & Hx & Hy & Hdata & Hmask).
  exists x, y, m. split; [exact Hrun|].
  split; [exact (Hx 1)|]. split; [exact (Hx 2)|]. split; [exact (Hx 3)|].
  split; [exact (Hy 1)|]. split; [exact (Hy 2)|].
  split; [exact (Hdata 0 1)|]. split; [exact (Hmask 0 1)|].
  split; [exact (Hdata 1 2)|exact (Hmask 1 2)].
Defined.
